(** * CurveTool: the curve editing core of the image editor

    A shallow embedding of [src/components/image-editor/CurveTool.tsx]:
    the point and curve data, the spline evaluation of the two redraw
    paths, the hit tests, the four event handlers with the React state
    updates they queue, and the subscription effect that attaches them.

    Conventions of the embedding.
    - A JavaScript [number] holding a coordinate or a size is a binary64
      float ([PrimFloat.float]) with the operations of IEEE 754; an array
      index or a loop counter is an integer ([nat], or [Z] where the code
      subtracts from it).
    - An array of the TypeScript type [T[]] is a [list T]; reading past
      either end gives [undefined] ([None]).
    - A handler is a computation that emits, in program order, the calls
      it makes on the 2D context, the state updates it queues and the
      callbacks it invokes, and that either returns or throws.
    - React applies the queued updates after the handler has returned;
      the handlers of the next event close over the resulting state,
      because the subscription effect lists every state variable the
      handlers read among its dependencies. *)

From Stdlib Require Import ZArith Floats.
From stdpp Require Import base list strings.

(** ** Data model *)

(** [interface Point { x: number; y: number }] *)
Record Point := mkPoint { x : float; y : float }.

(** [Point[]] *)
Abbreviation Curve := (list Point).

(** The six [useState] cells of the component. *)
Record State := mkState {
  curves : list Curve;
  currentCurve : Curve;
  selectedCurveIndex : option nat;
  dragging : option nat;
  mousePos : option Point;
  drawing : bool
}.

(** What the handlers see of [canvasRef.current]: its size, the origin
    of its bounding rectangle, and whether [getContext("2d")] yields a
    context. *)
Record Canvas := mkCanvas {
  width : float;
  height : float;
  rect_left : float;
  rect_top : float;
  has_context2d : bool
}.

(** [CurveToolProps]; of the two callbacks only their presence matters,
    their calls are recorded as effects. *)
Record Props := mkProps {
  active : bool;
  canvasRef_current : option Canvas;
  currentColor : string;
  strokeStyle : string;
  brushSize : float;
  has_onFinishCurve : bool
}.

Record MouseEvent := mkMouseEvent { clientX : float; clientY : float }.
Record KeyboardEvent := mkKeyboardEvent { key : string }.

(** [useState] initial values: everything empty, [drawing] seeded from
    the [active] prop. *)
Definition initialState (props : Props) : State :=
  {| curves := []; currentCurve := []; selectedCurveIndex := None;
     dragging := None; mousePos := None; drawing := active props |}.

(** ** Completions *)

(** How the embedding of a piece of code can stop short. [TypeError] is
    the exception JavaScript raises on a property read of [undefined] or
    on spreading [undefined]. [SparseArray] is no exception and no stop
    of the program: it marks an array store beyond the end of the
    array, after which the code carries on with an array that has empty
    slots. The declared type [Point[]], and so a list of points, cannot
    hold that array; the embedding reports the store and follows the
    program no further. *)
Inductive Abruption := TypeError | SparseArray.

Inductive Completion (A : Type) :=
| Normal (a : A)
| Abrupt (e : Abruption).
Arguments Normal {A} a.
Arguments Abrupt {A} e.

(** ** Arrays *)

(** [a[i]] for an integer [i]: [undefined] when [i] is negative or not
    below the length. *)
Definition array_get {A} (a : list A) (i : Z) : option A :=
  if (i <? 0)%Z then None else a !! Z.to_nat i.

(** [a[k] = v]: replaces inside the array and appends at its end.
    Beyond the end JavaScript stores as well, returning normally with
    [v] at index [k] and the slots in between left empty; that result
    is reported as [SparseArray] (see [Abruption]). *)
Definition array_store {A} (a : list A) (k : nat) (v : A) : Completion (list A) :=
  if decide (k < length a) then Normal (<[k := v]> a)
  else if decide (k = length a) then Normal (a ++ [v])
  else Abrupt SparseArray.

(** [l || r] on values that are objects or [undefined]. *)
Definition or_else {A} (l r : option A) : option A :=
  match l with Some v => Some v | None => r end.

(** [a.findIndex(p)]: the index of the first element satisfying [p],
    [-1] when there is none. *)
Fixpoint findIndex_from {A} (p : A -> bool) (a : list A) (i : Z) : Z :=
  match a with
  | [] => (-1)%Z
  | v :: a' => if p v then i else findIndex_from p a' (i + 1)%Z
  end.

Definition findIndex {A} (p : A -> bool) (a : list A) : Z := findIndex_from p a 0%Z.

(** [a.some(p)] *)
Definition some {A} (p : A -> bool) (a : list A) : bool := existsb p a.

(** ** React state updates *)

(** The argument of a state setter: a value, or a function of the
    previous value. *)
Inductive SetStateAction (A : Type) :=
| value (a : A)
| updater (f : A -> Completion A).
Arguments value {A} a.
Arguments updater {A} f.

Inductive Update :=
| setCurves (a : SetStateAction (list Curve))
| setCurrentCurve (a : SetStateAction Curve)
| setSelectedCurveIndex (a : SetStateAction (option nat))
| setDragging (a : SetStateAction (option nat))
| setMousePos (a : SetStateAction (option Point))
| setDrawing (a : SetStateAction bool).

(** ** Effects and the handler monad *)

(** Calls on [CanvasRenderingContext2D]. *)
Inductive CanvasOp :=
| clearRect (x0 y0 w h : float)
| beginPath
| moveTo (px py : float)
| lineTo (px py : float)
| bezierCurveTo (cp1x cp1y cp2x cp2y px py : float)
| arc (cx cy r a0 a1 : float)
| set_strokeStyle (s : string)
| set_lineWidth (w : float)
| set_fillStyle (s : string)
| setLineDash (segments : list float)
| stroke
| fill.

Inductive Effect :=
| ctx (op : CanvasOp)
| set (u : Update)
| call_setActiveTool_null
| call_onFinishCurve (curve : Curve).

(** A computation: the effects emitted so far, and how it ended. *)
Definition Run (A : Type) : Type := list Effect * Completion A.

Definition ret {A} (a : A) : Run A := ([], Normal a).

Definition throw {A} (e : Abruption) : Run A := ([], Abrupt e).

Definition emit (eff : Effect) : Run unit := ([eff], Normal tt).

Definition bind {A B} (m : Run A) (k : A -> Run B) : Run B :=
  match m with
  | (t, Normal a) => let '(t', r) := k a in (t ++ t', r)
  | (t, Abrupt e) => (t, Abrupt e)
  end.

(** [Run] is a monad in stdpp's sense: [v ← m; k] and [m;; k] below
    are its sequencing. *)
#[global] Instance Run_ret : MRet Run := @ret.
#[global] Instance Run_bind : MBind Run := λ A B k m, bind m k.

(** [a.forEach((v, idx) => body)] *)
Fixpoint forEach_from {A} (a : list A) (idx : nat) (body : A -> nat -> Run unit) : Run unit :=
  match a with
  | [] => ret tt
  | v :: a' => body v idx;; forEach_from a' (S idx) body
  end.

Definition forEach {A} (a : list A) (body : A -> nat -> Run unit) : Run unit :=
  forEach_from a 0 body.

(** ** Geometry: the spline of the redraw ([draw], lines 50-65) *)

(** One pass of the loop body: the four neighbours are fetched, then the
    control points read [.x] and [.y] of all of them, so an [undefined]
    neighbour raises [TypeError] before [bezierCurveTo] is called. *)
Definition draw_segment (curve : Curve) (i : Z) : Run unit :=
  let p0 := or_else (array_get curve (i - 1)) (array_get curve i) in
  let p1 := array_get curve i in
  let p2 := array_get curve (i + 1) in
  let p3 := or_else (array_get curve (i + 2)) p2 in
  match p0, p1, p2, p3 with
  | Some p0, Some p1, Some p2, Some p3 =>
      let cp1x := (x p1 + (x p2 - x p0) / 6)%float in
      let cp1y := (y p1 + (y p2 - y p0) / 6)%float in
      let cp2x := (x p2 - (x p3 - x p1) / 6)%float in
      let cp2y := (y p2 - (y p3 - y p1) / 6)%float in
      emit (ctx (bezierCurveTo cp1x cp1y cp2x cp2y (x p2) (y p2)))
  | _, _, _, _ => throw TypeError
  end.

(** [for (let i = 0; i < curve.length - 1; i++)], entered at counter [i]
    with [n] passes still to run. *)
Fixpoint draw_segments (curve : Curve) (n : nat) (i : Z) : Run unit :=
  match n with
  | O => ret tt
  | S n' => draw_segment curve i;; draw_segments curve n' (i + 1)%Z
  end.

(** [beginPath(); moveTo(curve[0].x, curve[0].y);] and the loop. *)
Definition draw_path (curve : Curve) : Run unit :=
  emit (ctx beginPath);;
  match array_get curve 0 with
  | Some p => emit (ctx (moveTo (x p) (y p)))
  | None => throw TypeError
  end;;
  draw_segments curve (Z.to_nat (Z.of_nat (length curve) - 1)) 0%Z.

(** The stroke settings of [draw] (lines 67-84). *)
Definition draw_stroke_style (props : Props) : Run unit :=
  let brush := brushSize props in
  emit (ctx (set_strokeStyle (currentColor props)));;
  emit (ctx (set_lineWidth brush));;
  if String.eqb (strokeStyle props) "dashed" then
    emit (ctx (setLineDash [(brush * 3)%float; (brush * 2)%float]))
  else if String.eqb (strokeStyle props) "dotted" then
    emit (ctx (setLineDash [brush; brush]))
  else if String.eqb (strokeStyle props) "double" then
    emit (ctx (setLineDash []));;
    emit (ctx (set_lineWidth (brush / 2)%float))
  else
    emit (ctx (setLineDash [])).

(** [Math.PI], the binary64 value nearest to pi. *)
Definition Math_PI : float := 0x1.921fb54442d18p+1%float.

(** The marker of one control point (lines 92-95). *)
Definition draw_marker (props : Props) (pt : Point) : Run unit :=
  emit (ctx beginPath);;
  emit (ctx (arc (x pt) (y pt) 5 0 (2 * Math_PI)%float));;
  emit (ctx (set_fillStyle (currentColor props)));;
  emit (ctx fill).

(** [selectedCurveIndex === idx] *)
Definition is_selected (st : State) (idx : nat) : bool :=
  match selectedCurveIndex st with
  | Some c => Nat.eqb c idx
  | None => false
  end.

(** The callback of [allCurves.forEach] in [draw] (lines 47-98). *)
Definition draw_curve (props : Props) (st : State) (curve : Curve) (idx : nat) : Run unit :=
  if Nat.ltb (length curve) 2 then ret tt
  else
    draw_path curve;;
    draw_stroke_style props;;
    emit (ctx stroke);;
    emit (ctx (setLineDash []));;
    if is_selected st idx then forEach curve (fun pt _ => draw_marker props pt)
    else ret tt.

(** The rubber-band guide from the last placed point to the pointer
    (lines 100-110). *)
Definition draw_rubber_band (props : Props) (st : State) : Run unit :=
  match mousePos st with
  | Some pointer =>
      if drawing st && Nat.ltb 0 (length (currentCurve st)) then
        match array_get (currentCurve st) (Z.of_nat (length (currentCurve st)) - 1) with
        | Some lastPoint =>
            emit (ctx beginPath);;
            emit (ctx (moveTo (x lastPoint) (y lastPoint)));;
            emit (ctx (lineTo (x pointer) (y pointer)));;
            emit (ctx (set_strokeStyle "#aaa"));;
            emit (ctx (setLineDash [brushSize props; brushSize props]));;
            emit (ctx (set_lineWidth (brushSize props)));;
            emit (ctx stroke);;
            emit (ctx (setLineDash []))
        | None => throw TypeError
        end
      else ret tt
  | None => ret tt
  end.

(** [draw] (lines 35-111), the effect run after every state change. *)
Definition draw (props : Props) (st : State) : Run unit :=
  match canvasRef_current props with
  | None => ret tt
  | Some canvas =>
      if negb (has_context2d canvas) then ret tt
      else
        emit (ctx (clearRect 0 0 (width canvas) (height canvas)));;
        let allCurves :=
          curves st ++
          (if drawing st && Nat.ltb 1 (length (currentCurve st))
           then [currentCurve st] else []) in
        forEach allCurves (draw_curve props st);;
        draw_rubber_band props st
  end.

(** ** Pointer position and hit tests *)

(** [getMousePos] (lines 113-124) *)
Definition getMousePos (props : Props) (e : MouseEvent) : Point :=
  match canvasRef_current props with
  | None => {| x := 0; y := 0 |}
  | Some canvas =>
      {| x := (clientX e - rect_left canvas)%float;
         y := (clientY e - rect_top canvas)%float |}
  end.

(** [isNear] (lines 126-130); [distance] defaults to 10 at the call
    sites that omit it. *)
Definition isNear (pt1 pt2 : Point) (distance : float) : bool :=
  let dx := (x pt1 - x pt2)%float in
  let dy := (y pt1 - y pt2)%float in
  (dx * dx + dy * dy <=? distance * distance)%float.

(** The curve-level hit test (lines 150-152). *)
Definition hitIndex (curves : list Curve) (pos : Point) : Z :=
  findIndex (fun curve => some (fun pt => isNear pt pos 8) curve) curves.

(** The point-level scan of the selected curve (lines 142-147), entered
    at counter [i] with [n] passes still to run; the result tells
    whether the handler has returned from inside the loop. *)
Fixpoint point_scan (curve : Curve) (pos : Point) (n i : nat) : Run bool :=
  match n with
  | O => ret false
  | S n' =>
      match curve !! i with
      | None => throw TypeError
      | Some pt =>
          if isNear pos pt 10 then
            emit (set (setDragging (value (Some i))));; ret true
          else point_scan curve pos n' (S i)
      end
  end.

(** ** Event handlers *)

(** [handleMouseDown] (lines 132-162); [cl] holds the state values the
    handler closes over. *)
Definition handleMouseDown (props : Props) (cl : State) (e : MouseEvent) : Run unit :=
  let pos := getMousePos props e in
  if drawing cl then
    emit (set (setCurrentCurve (updater (fun prev => Normal (prev ++ [pos])))))
  else
    returned ←
      match selectedCurveIndex cl with
      | Some sel =>
          match curves cl !! sel with
          | Some curve => point_scan curve pos (length curve) 0
          | None => throw TypeError
          end
      | None => ret false
      end;
    if (returned : bool) then ret tt
    else
      let hit := hitIndex (curves cl) pos in
      if negb (Z.eqb hit (-1)) then
        emit (set (setSelectedCurveIndex (value (Some (Z.to_nat hit)))))
      else
        emit (set (setCurrentCurve (value [pos])));;
        emit (set (setDrawing (value true))).

(** [handleMouseMove] (lines 164-177) *)
Definition handleMouseMove (props : Props) (cl : State) (e : MouseEvent) : Run unit :=
  let pos := getMousePos props e in
  emit (set (setMousePos (value (Some pos))));;
  match dragging cl, selectedCurveIndex cl with
  | Some k, Some sel =>
      emit (set (setCurves (updater (fun prev =>
        let newCurves := prev in
        match newCurves !! sel with
        | None => Abrupt TypeError
        | Some selected =>
            match array_store selected k pos with
            | Normal updatedCurve => array_store newCurves sel updatedCurve
            | Abrupt a => Abrupt a
            end
        end))))
  | _, _ => ret tt
  end.

(** [handleMouseUp] (lines 179-182) *)
Definition handleMouseUp : Run unit :=
  emit (set (setDragging (value None)));;
  emit (set (setMousePos (value None))).

(** *** The commit key and its own redraw ([handleKeyDown], lines 184-262) *)

(** The loop body of the second copy of the spline code (lines 219-229). *)
Definition finalize_segment (curve : Curve) (i : Z) : Run unit :=
  let p0 := or_else (array_get curve (i - 1)) (array_get curve i) in
  let p1 := array_get curve i in
  let p2 := array_get curve (i + 1) in
  let p3 := or_else (array_get curve (i + 2)) p2 in
  match p0, p1, p2, p3 with
  | Some p0, Some p1, Some p2, Some p3 =>
      let cp1x := (x p1 + (x p2 - x p0) / 6)%float in
      let cp1y := (y p1 + (y p2 - y p0) / 6)%float in
      let cp2x := (x p2 - (x p3 - x p1) / 6)%float in
      let cp2y := (y p2 - (y p3 - y p1) / 6)%float in
      emit (ctx (bezierCurveTo cp1x cp1y cp2x cp2y (x p2) (y p2)))
  | _, _, _, _ => throw TypeError
  end.

(** The loop of line 218, entered at counter [i] with [n] passes still
    to run. *)
Fixpoint finalize_segments (curve : Curve) (n : nat) (i : Z) : Run unit :=
  match n with
  | O => ret tt
  | S n' => finalize_segment curve i;; finalize_segments curve n' (i + 1)%Z
  end.

(** Lines 215-230. *)
Definition finalize_path (curve : Curve) : Run unit :=
  emit (ctx beginPath);;
  match array_get curve 0 with
  | Some p => emit (ctx (moveTo (x p) (y p)))
  | None => throw TypeError
  end;;
  finalize_segments curve (Z.to_nat (Z.of_nat (length curve) - 1)) 0%Z.

(** Lines 232-252: as in [draw], with the line width set once more in
    every branch. *)
Definition finalize_stroke_style (props : Props) : Run unit :=
  let brush := brushSize props in
  emit (ctx (set_strokeStyle (currentColor props)));;
  emit (ctx (set_lineWidth brush));;
  if String.eqb (strokeStyle props) "dashed" then
    emit (ctx (setLineDash [(brush * 3)%float; (brush * 2)%float]));;
    emit (ctx (set_lineWidth brush))
  else if String.eqb (strokeStyle props) "dotted" then
    emit (ctx (setLineDash [brush; brush]));;
    emit (ctx (set_lineWidth brush))
  else if String.eqb (strokeStyle props) "double" then
    emit (ctx (setLineDash []));;
    emit (ctx (set_lineWidth (brush / 2)%float))
  else
    emit (ctx (setLineDash []));;
    emit (ctx (set_lineWidth brush)).

(** [canvas?.getContext("2d")] being non-null. *)
Definition context_available (props : Props) : bool :=
  match canvasRef_current props with
  | Some canvas => has_context2d canvas
  | None => false
  end.

(** The callback of [allCurves.forEach] in [handleKeyDown]
    (lines 209-256); it paints no markers. *)
Definition finalize_curve (props : Props) (curve : Curve) (idx : nat) : Run unit :=
  if Nat.ltb (length curve) 2 then ret tt
  else if negb (context_available props) then ret tt
  else
    finalize_path curve;;
    finalize_stroke_style props;;
    emit (ctx stroke);;
    emit (ctx (setLineDash [])).

(** [handleKeyDown] (lines 184-262) *)
Definition handleKeyDown (props : Props) (cl : State) (e : KeyboardEvent) : Run unit :=
  if String.eqb (key e) "Enter" && drawing cl && Nat.ltb 1 (length (currentCurve cl)) then
    match canvasRef_current props with
    | Some canvas =>
        if has_context2d canvas
        then emit (ctx (clearRect 0 0 (width canvas) (height canvas)))
        else ret tt
    | None => ret tt
    end;;
    emit (set (setCurves (updater (fun prev => Normal (prev ++ [currentCurve cl])))));;
    emit (set (setCurrentCurve (value [])));;
    emit (set (setMousePos (value None)));;
    emit (set (setDrawing (value false)));;
    emit call_setActiveTool_null;;
    emit (set (setSelectedCurveIndex (value None)));;
    let allCurves :=
      (curves cl ++ [currentCurve cl]) ++
      (if Nat.ltb 1 (length (currentCurve cl)) then [currentCurve cl] else []) in
    forEach allCurves (finalize_curve props);;
    if has_onFinishCurve props then emit (call_onFinishCurve (currentCurve cl))
    else ret tt
  else ret tt.

(** ** Processing the queued updates *)

Definition apply_action {A} (a : SetStateAction A) (prev : A) : Completion A :=
  match a with
  | value v => Normal v
  | updater f => f prev
  end.

Definition with_cell {A} (c : Completion A) (put : A -> State) : Completion State :=
  match c with
  | Normal v => Normal (put v)
  | Abrupt e => Abrupt e
  end.

(** The state with one cell replaced. *)
Definition put_curves (v : list Curve) (st : State) : State :=
  mkState v (currentCurve st) (selectedCurveIndex st) (dragging st) (mousePos st) (drawing st).
Definition put_currentCurve (v : Curve) (st : State) : State :=
  mkState (curves st) v (selectedCurveIndex st) (dragging st) (mousePos st) (drawing st).
Definition put_selectedCurveIndex (v : option nat) (st : State) : State :=
  mkState (curves st) (currentCurve st) v (dragging st) (mousePos st) (drawing st).
Definition put_dragging (v : option nat) (st : State) : State :=
  mkState (curves st) (currentCurve st) (selectedCurveIndex st) v (mousePos st) (drawing st).
Definition put_mousePos (v : option Point) (st : State) : State :=
  mkState (curves st) (currentCurve st) (selectedCurveIndex st) (dragging st) v (drawing st).
Definition put_drawing (v : bool) (st : State) : State :=
  mkState (curves st) (currentCurve st) (selectedCurveIndex st) (dragging st) (mousePos st) v.

(** One queued update applied to the state it finds. *)
Definition apply_update (u : Update) (st : State) : Completion State :=
  match u with
  | setCurves a =>
      with_cell (apply_action a (curves st)) (fun v => put_curves v st)
  | setCurrentCurve a =>
      with_cell (apply_action a (currentCurve st)) (fun v => put_currentCurve v st)
  | setSelectedCurveIndex a =>
      with_cell (apply_action a (selectedCurveIndex st)) (fun v => put_selectedCurveIndex v st)
  | setDragging a =>
      with_cell (apply_action a (dragging st)) (fun v => put_dragging v st)
  | setMousePos a =>
      with_cell (apply_action a (mousePos st)) (fun v => put_mousePos v st)
  | setDrawing a =>
      with_cell (apply_action a (drawing st)) (fun v => put_drawing v st)
  end.

(** The updates among the emitted effects, applied in the order they
    were queued; an updater that throws aborts the render. *)
Fixpoint flush (effects : list Effect) (st : State) : Completion State :=
  match effects with
  | [] => Normal st
  | set u :: rest =>
      match apply_update u st with
      | Normal st' => flush rest st'
      | Abrupt e => Abrupt e
      end
  | _ :: rest => flush rest st
  end.

(** A handler run against the state it was subscribed under, followed
    by the processing of what it queued. A handler that throws is
    reported as such. *)
Definition process (h : State -> Run unit) (st : State) : Completion State :=
  match h st with
  | (effects, Normal _) => flush effects st
  | (_, Abrupt e) => Abrupt e
  end.

Definition onMouseDown (props : Props) (st : State) (e : MouseEvent) : Completion State :=
  process (fun cl => handleMouseDown props cl e) st.

Definition onMouseMove (props : Props) (st : State) (e : MouseEvent) : Completion State :=
  process (fun cl => handleMouseMove props cl e) st.

Definition onMouseUp (st : State) : Completion State :=
  process (fun _ => handleMouseUp) st.

Definition onKeyDown (props : Props) (st : State) (e : KeyboardEvent) : Completion State :=
  process (fun cl => handleKeyDown props cl e) st.

(** ** The subscription effect (lines 266-283) *)

Inductive Event :=
| mousedown (e : MouseEvent)
| mousemove (e : MouseEvent)
| mouseup (e : MouseEvent)
| keydown (e : KeyboardEvent).

(** The effect returns before [addEventListener] when [drawing] is
    false or the canvas is missing; its cleanup removes the listeners
    whenever a dependency changes. So the four listeners are attached
    exactly in the states where this holds. *)
Definition subscribed (props : Props) (st : State) : bool :=
  drawing st && bool_decide (is_Some (canvasRef_current props)).

(** An event processed by the handler registered for its kind. *)
Definition handle (props : Props) (st : State) (ev : Event) : Completion State :=
  match ev with
  | mousedown e => onMouseDown props st e
  | mousemove e => onMouseMove props st e
  | mouseup _ => onMouseUp st
  | keydown e => onKeyDown props st e
  end.

(** One event delivered to the mounted component: it reaches a handler
    only while the listeners are attached. *)
Definition deliver (props : Props) (st : State) (ev : Event) : Completion State :=
  if subscribed props st then handle props st ev else Normal st.

(** A sequence of events, each delivered to the state the previous one
    left. *)
Fixpoint deliver_all (props : Props) (st : State) (evs : list Event) : Completion State :=
  match evs with
  | [] => Normal st
  | ev :: rest =>
      match deliver props st ev with
      | Normal st' => deliver_all props st' rest
      | Abrupt e => Abrupt e
      end
  end.

(** ** The interaction mode of the specification *)

(** The mode is not stored: it is read off the [drawing] flag, the
    selection index and the drag index. *)
Inductive Mode :=
| Drawing
| Idle
| Selected (c : nat)
| Dragging (c k : nat).

Definition mode (st : State) : Mode :=
  if drawing st then Drawing
  else match selectedCurveIndex st, dragging st with
       | None, _ => Idle
       | Some c, None => Selected c
       | Some c, Some k => Dragging c k
       end.

(** * Vocabulary of the specification *)

(** A computation that only paints: it returns, and every effect it
    emits is a call on the 2D context. *)
Definition paints (m : Run unit) (ops : list CanvasOp) : Prop :=
  m = (ctx <$> ops, Normal tt).

(** ** The spline as the specification words it (section 4.1) *)

#[global] Instance Point_inhabited : Inhabited Point := populate (mkPoint 0 0).

(** [p0 = P[i-1]], clamped to [P[i]] if [i = 0]. *)
Definition clamped_prev (P : list Point) (i : nat) : Point :=
  if decide (i = 0) then P !!! i else P !!! (i - 1).

(** [p3 = P[i+2]], clamped to [p2 = P[i+1]] if [i+2] is out of range. *)
Definition clamped_next (P : list Point) (i : nat) : Point :=
  if decide (i + 2 < length P) then P !!! (i + 2) else P !!! (i + 1).

(** The cubic Bezier segment of the pair [(P[i], P[i+1])]:
    [cp1 = p1 + (p2 - p0)/6], [cp2 = p2 - (p3 - p1)/6], ending at [p2]. *)
Definition spline_segment (P : list Point) (i : nat) : CanvasOp :=
  let p0 := clamped_prev P i in
  let p1 := P !!! i in
  let p2 := P !!! (i + 1) in
  let p3 := clamped_next P i in
  bezierCurveTo (x p1 + (x p2 - x p0) / 6)%float (y p1 + (y p2 - y p0) / 6)%float
                (x p2 - (x p3 - x p1) / 6)%float (y p2 - (y p3 - y p1) / 6)%float
                (x p2) (y p2).

(** The path: it starts at [P[0]] and has one segment per [i] in
    [[0, n-2]]. *)
Definition spline_path (P : list Point) : list CanvasOp :=
  moveTo (x (P !!! 0)) (y (P !!! 0)) :: (spline_segment P <$> seq 0 (length P - 1)).

(** Where a path operation leaves the pen. *)
Definition end_point (op : CanvasOp) : option Point :=
  match op with
  | moveTo px py | lineTo px py | bezierCurveTo _ _ _ _ px py => Some (mkPoint px py)
  | _ => None
  end.

(** ** Distances (section 4.3) *)

(** The squared distance of the specification (section 4.3), computed
    as the source does. *)
Definition squared_distance (p q : Point) : float :=
  ((x p - x q) * (x p - x q) + (y p - y q) * (y p - y q))%float.

(** A curve has a point within 8 pixels of the pointer. *)
Definition within_8px (pos : Point) (curve : Curve) : Prop :=
  exists pt, pt ∈ curve /\ (squared_distance pt pos <=? 64)%float = true.

(** The point [k] of the committed curve [c]. *)
Definition point_at (cs : list Curve) (c k : nat) : option Point :=
  cs !! c ≫= fun curve => curve !! k.

(** ** The pointer-down transitions (section 4.4) *)

(** With a curve selected, the point-level test found none of its
    points within 10 pixels of the pointer. *)
Definition no_point_hit (st : State) (pos : Point) : Prop :=
  match selectedCurveIndex st with
  | None => True
  | Some c =>
      exists curve, curves st !! c = Some curve /\
        Forall (fun pt => isNear pos pt 10 = false) curve
  end.

(** What a pointer-down at [pos] does to a state: the four transitions
    of the specification, and the exception raised on a selection index
    that references no committed curve. *)
Inductive pointer_down (st : State) (pos : Point) : Completion State -> Prop :=
| down_append :
    drawing st = true ->
    pointer_down st pos (Normal (put_currentCurve (currentCurve st ++ [pos]) st))
| down_stale c :
    drawing st = false ->
    selectedCurveIndex st = Some c -> curves st !! c = None ->
    pointer_down st pos (Abrupt TypeError)
| down_drag c curve k pt :
    drawing st = false ->
    selectedCurveIndex st = Some c -> curves st !! c = Some curve ->
    curve !! k = Some pt -> isNear pos pt 10 = true ->
    Forall (fun pt' => isNear pos pt' 10 = false) (take k curve) ->
    pointer_down st pos (Normal (put_dragging (Some k) st))
| down_select i :
    drawing st = false -> no_point_hit st pos ->
    hitIndex (curves st) pos = Z.of_nat i ->
    pointer_down st pos (Normal (put_selectedCurveIndex (Some i) st))
| down_start :
    drawing st = false -> no_point_hit st pos ->
    hitIndex (curves st) pos = (-1)%Z ->
    pointer_down st pos (Normal (put_drawing true (put_currentCurve [pos] st))).

(** ** Reading a trace *)

(** The calls on the 2D context among the effects, in order. *)
Definition canvas_ops (t : list Effect) : list CanvasOp :=
  omap (fun eff => match eff with ctx op => Some op | _ => None end) t.

(** The arguments of the calls of [onFinishCurve], in order. *)
Definition finished_curves (t : list Effect) : list Curve :=
  omap (fun eff => match eff with call_onFinishCurve c => Some c | _ => None end) t.

(** The number of calls of [setActiveTool(null)]. *)
Definition tool_resets (t : list Effect) : nat :=
  length (List.filter (fun eff => match eff with call_setActiveTool_null => true | _ => false end) t).

Definition is_stroke (op : CanvasOp) : bool :=
  match op with stroke => true | _ => false end.

Definition is_arc (op : CanvasOp) : bool :=
  match op with arc _ _ _ _ _ => true | _ => false end.

Definition count_ops (p : CanvasOp -> bool) (ops : list CanvasOp) : nat :=
  length (List.filter p ops).

(** A curve that the redraw strokes: the callback of [forEach] does not
    return at [curve.length < 2]. *)
Definition strokable (curve : Curve) : bool := negb (Nat.ltb (length curve) 2).

(** [allCurves] of [draw] (lines 42-45): the committed curves, followed
    by the Active Curve while drawing with more than one point. *)
Definition drawn_curves (st : State) : list Curve :=
  curves st ++
  (if drawing st && Nat.ltb 1 (length (currentCurve st)) then [currentCurve st] else []).

(** The condition under which [draw] paints the rubber band (line 100). *)
Definition rubber_band_shown (st : State) : bool :=
  drawing st && Nat.ltb 0 (length (currentCurve st)) && bool_decide (is_Some (mousePos st)).

(** The number of markers painted over the curves [a] when [forEach]
    numbers them from [idx]: those of the curve at the selected index,
    if it is stroked. *)
Definition marked_from (st : State) (a : list Curve) (idx : nat) : nat :=
  match selectedCurveIndex st with
  | Some c =>
      if decide (idx <= c) then
        match a !! (c - idx) with
        | Some curve => if strokable curve then length curve else 0
        | None => 0
        end
      else 0
  | None => 0
  end.

(** ** Handlers in sequence *)

(** A sequence of events, each processed by its handler in the state
    the previous one left, whether or not the listeners are attached. *)
Fixpoint handle_all (props : Props) (st : State) (evs : list Event) : Completion State :=
  match evs with
  | [] => Normal st
  | ev :: rest =>
      match handle props st ev with
      | Normal st' => handle_all props st' rest
      | Abrupt e => Abrupt e
      end
  end.

(** The selection index, when set, references a committed curve. *)
Definition selection_in_range (st : State) : Prop :=
  match selectedCurveIndex st with
  | None => True
  | Some c => c < length (curves st)
  end.

(** Every committed curve has at least two points. *)
Definition curves_strokable (st : State) : Prop :=
  Forall (fun curve => 2 <= length curve) (curves st).

(** The states the mounted component can be in: nothing selected or
    dragged; while drawing nothing is committed yet, and afterwards at
    most one curve is, with at least two points. *)
Definition mounted_state (st : State) : Prop :=
  selectedCurveIndex st = None /\ dragging st = None /\
  length (curves st) <= 1 /\ curves_strokable st /\
  (drawing st = true -> curves st = []).


(** * Properties *)

(** ** Sequencing *)

Lemma bind_Normal {A B} (t : list Effect) (a : A) (k : A -> Run B) :
  (t, Normal a) ≫= k = (t ++ (k a).1, (k a).2).
Proof. unfold mbind, Run_bind, bind. by destruct (k a). Qed.

Lemma bind_Abrupt {A B} (t : list Effect) (e : Abruption) (k : A -> Run B) :
  (t, Abrupt e) ≫= k = (t, Abrupt e).
Proof. reflexivity. Qed.

Lemma paints_ret : paints (ret tt) [].
Proof. reflexivity. Qed.

Lemma paints_emit op : paints (emit (ctx op)) [op].
Proof. reflexivity. Qed.

Lemma paints_bind m k ops1 ops2 :
  paints m ops1 -> paints (k tt) ops2 -> paints (m ≫= k) (ops1 ++ ops2).
Proof.
  unfold paints. intros -> Hk. rewrite bind_Normal, Hk. cbn.
  by rewrite fmap_app.
Qed.

Lemma paints_forEach_from {A} (body : A -> nat -> Run unit) (a : list A) :
  (forall v idx, v ∈ a -> exists ops, paints (body v idx) ops) ->
  forall idx, exists ops, paints (forEach_from a idx body) ops.
Proof.
  induction a as [|v a IH]; intros Hbody idx; cbn [forEach_from].
  - exists []. apply paints_ret.
  - destruct (Hbody v idx) as [ops1 H1]; [constructor|].
    destruct (IH (fun w j Hw => Hbody w j (list_elem_of_further _ _ _ Hw)) (S idx))
      as [ops2 H2].
    exists (ops1 ++ ops2). by apply paints_bind.
Qed.

(** ** Array reads *)

Lemma array_get_of_nat {A} (a : list A) (i : nat) :
  array_get a (Z.of_nat i) = a !! i.
Proof.
  unfold array_get. destruct (Z.ltb_spec (Z.of_nat i) 0); [lia|].
  by rewrite Nat2Z.id.
Qed.

Lemma array_get_negative {A} (a : list A) (i : Z) :
  (i < 0)%Z -> array_get a i = None.
Proof. unfold array_get. intros H. by destruct (Z.ltb_spec i 0); [|lia]. Qed.

Lemma point_eta (p : Point) : mkPoint (x p) (y p) = p.
Proof. by destruct p. Qed.

Lemma draw_segment_in_range (P : list Point) (i : nat) :
  i + 1 < length P ->
  draw_segment P (Z.of_nat i) = emit (ctx (spline_segment P i)).
Proof.
  intros Hi. unfold draw_segment, spline_segment, clamped_prev, clamped_next.
  replace (Z.of_nat i + 1)%Z with (Z.of_nat (i + 1)) by lia.
  replace (Z.of_nat i + 2)%Z with (Z.of_nat (i + 2)) by lia.
  rewrite !array_get_of_nat.
  rewrite (list_lookup_lookup_total_lt P i) by lia.
  rewrite (list_lookup_lookup_total_lt P (i + 1)) by lia.
  assert (Hprev : or_else (array_get P (Z.of_nat i - 1)) (Some (P !!! i))
                  = Some (if decide (i = 0) then P !!! i else P !!! (i - 1))).
  { destruct (decide (i = 0)) as [->|Hne].
    - by rewrite array_get_negative by lia.
    - replace (Z.of_nat i - 1)%Z with (Z.of_nat (i - 1)) by lia.
      rewrite array_get_of_nat, (list_lookup_lookup_total_lt P (i - 1)) by lia.
      reflexivity. }
  rewrite Hprev.
  destruct (decide (i + 2 < length P)) as [Hin|Hout].
  - by rewrite (list_lookup_lookup_total_lt P (i + 2)) by lia.
  - by rewrite (lookup_ge_None_2 P (i + 2)) by lia.
Qed.

Lemma draw_segments_in_range (P : list Point) (n i : nat) :
  i + n + 1 <= length P ->
  paints (draw_segments P n (Z.of_nat i)) (spline_segment P <$> seq i n).
Proof.
  revert i. induction n as [|n IH]; intros i Hi; cbn [draw_segments seq fmap list_fmap].
  - apply paints_ret.
  - rewrite draw_segment_in_range by lia.
    replace (Z.of_nat i + 1)%Z with (Z.of_nat (S i)) by lia.
    apply (paints_bind _ _ [_]); [apply paints_emit|].
    apply IH. lia.
Qed.

Lemma draw_path_paints (P : list Point) :
  2 <= length P -> paints (draw_path P) (beginPath :: spline_path P).
Proof.
  intros Hn. unfold draw_path, spline_path.
  apply (paints_bind _ _ [_]); [apply paints_emit|].
  apply (paints_bind _ _ [_]).
  - change (array_get P 0%Z) with (array_get P (Z.of_nat 0)).
    rewrite array_get_of_nat, (list_lookup_lookup_total_lt P 0) by lia.
    apply paints_emit.
  - replace (Z.to_nat (Z.of_nat (length P) - 1)) with (length P - 1) by lia.
    apply (draw_segments_in_range P (length P - 1) 0). lia.
Qed.

(** C2. For a point sequence [P] of [n >= 2] points, the path of the
    redraw begins with a move to [P[0]] and continues with exactly one
    cubic Bezier segment per pair [(P[i], P[i+1])], [i] from [0] to
    [n-2], whose control points are [p1 + (p2 - p0)/6] and
    [p2 - (p3 - p1)/6] with the clamped neighbours of the
    specification; segment [i] ends at [P[i+1]], so the last one ends at
    [P[n-1]]. The arithmetic is that of binary64 floats, in the order
    the source writes it. *)
Theorem spline_path_evaluated (P : list Point) :
  2 <= length P ->
  draw_path P = (ctx <$> beginPath :: spline_path P, Normal tt) /\
  spline_path P !! 0 = Some (moveTo (x (P !!! 0)) (y (P !!! 0))) /\
  length (spline_path P) = length P /\
  (forall i, i + 1 < length P ->
     spline_path P !! (S i) = Some (spline_segment P i) /\
     end_point (spline_segment P i) = P !! (i + 1)) /\
  (last (spline_path P) ≫= end_point) = P !! (length P - 1).
Proof.
  intros Hn.
  assert (Hseg : forall i, i + 1 < length P ->
            spline_path P !! (S i) = Some (spline_segment P i)).
  { intros i Hi. unfold spline_path.
    change ((?a :: ?l) !! S i) with (l !! i).
    rewrite list_lookup_fmap, lookup_seq_lt by lia. reflexivity. }
  assert (Hend : forall i, i + 1 < length P ->
            end_point (spline_segment P i) = P !! (i + 1)).
  { intros i Hi. cbn. rewrite point_eta.
    symmetry. apply list_lookup_lookup_total_lt. lia. }
  assert (Hlen : length (spline_path P) = length P).
  { unfold spline_path. cbn. rewrite length_fmap, length_seq. lia. }
  split; [by apply draw_path_paints|].
  split; [reflexivity|].
  split; [exact Hlen|].
  split; [by auto|].
  rewrite last_lookup, Hlen.
  replace (Nat.pred (length P)) with (S (length P - 2)) by lia.
  rewrite Hseg by lia. cbn [mbind option_bind].
  rewrite Hend by lia. f_equal. lia.
Qed.

Lemma spline_path_evaluated_witness :
  let P := [mkPoint 10 10; mkPoint 50 10; mkPoint 90 40] in
  2 <= length P /\
  (last (spline_path P) ≫= end_point) = Some (mkPoint 90 40).
Proof.
  split; [cbn; lia|].
  exact (proj2 (proj2 (proj2 (proj2
    (spline_path_evaluated [mkPoint 10 10; mkPoint 50 10; mkPoint 90 40]
       ltac:(cbn; lia)))))).
Defined.

(** ** The two copies of the spline code *)

Lemma finalize_segments_draw_segments (curve : Curve) (n : nat) (i : Z) :
  finalize_segments curve n i = draw_segments curve n i.
Proof.
  revert i. induction n as [|n IH]; intros i; cbn [finalize_segments draw_segments].
  - reflexivity.
  - rewrite IH. reflexivity.
Qed.

(** C9. On every point sequence the spline code of [draw] and its copy
    in the commit key handler emit the same path: the same starting
    point, and for every pass of the loop the same control points and
    the same segment end point (and they fail alike where a neighbour is
    missing). *)
Theorem finalize_path_draw_path (curve : Curve) :
  finalize_path curve = draw_path curve /\
  (forall i, finalize_segment curve i = draw_segment curve i) /\
  (forall n i, finalize_segments curve n i = draw_segments curve n i).
Proof.
  split; [|split].
  - unfold finalize_path, draw_path.
    by rewrite finalize_segments_draw_segments.
  - reflexivity.
  - intros n i. apply finalize_segments_draw_segments.
Qed.

Lemma finalize_path_paints (P : list Point) :
  2 <= length P -> paints (finalize_path P) (beginPath :: spline_path P).
Proof.
  intros Hn. unfold paints.
  unfold finalize_path. rewrite finalize_segments_draw_segments.
  by apply draw_path_paints.
Qed.

(** ** The curve-level hit test *)

Lemma findIndex_from_cases {A} (p : A -> bool) (a : list A) (k : Z) :
  (findIndex_from p a k = (-1)%Z /\ Forall (fun v => p v = false) a) \/
  (exists i v, findIndex_from p a k = (k + Z.of_nat i)%Z /\
               a !! i = Some v /\ p v = true /\
               Forall (fun w => p w = false) (take i a)).
Proof.
  revert k. induction a as [|v a IH]; intros k; cbn [findIndex_from].
  - left. split; [reflexivity|constructor].
  - destruct (p v) eqn:Hv.
    + right. exists 0, v. split; [lia|]. split; [reflexivity|].
      split; [exact Hv|constructor].
    + destruct (IH (k + 1)%Z) as [[-> Hall]|(i & w & -> & Hw & Hpw & Hbefore)].
      * left. split; [reflexivity|by constructor].
      * right. exists (S i), w. split; [lia|]. split; [exact Hw|].
        split; [exact Hpw|]. cbn [take]. by constructor.
Qed.

Lemma isNear_8 (pt pos : Point) :
  isNear pt pos 8 = (squared_distance pt pos <=? 64)%float.
Proof. reflexivity. Qed.

Lemma some_isNear_8 (pos : Point) (curve : Curve) :
  some (fun pt => isNear pt pos 8) curve = true <-> within_8px pos curve.
Proof.
  unfold some, within_8px. rewrite existsb_exists.
  split; intros (pt & Hin & Hnear); exists pt.
  - by rewrite list_elem_of_In, <- isNear_8.
  - by rewrite <- list_elem_of_In, isNear_8.
Qed.

Lemma some_isNear_8_false (pos : Point) (curve : Curve) :
  some (fun pt => isNear pt pos 8) curve = false <-> ~ within_8px pos curve.
Proof.
  rewrite <- some_isNear_8. by destruct (some _ curve).
Qed.

Lemma hitIndex_cases (curves : list Curve) (pos : Point) :
  (hitIndex curves pos = (-1)%Z /\ Forall (fun c => ~ within_8px pos c) curves) \/
  (exists i c, hitIndex curves pos = Z.of_nat i /\ curves !! i = Some c /\
               within_8px pos c /\
               Forall (fun c' => ~ within_8px pos c') (take i curves)).
Proof.
  unfold hitIndex, findIndex.
  destruct (findIndex_from_cases (fun curve => some (fun pt => isNear pt pos 8) curve)
              curves 0) as [[-> Hall]|(i & c & -> & Hc & Hhit & Hbefore)].
  - left. split; [reflexivity|].
    eapply Forall_impl; [exact Hall|]. intros c. apply some_isNear_8_false.
  - right. exists i, c. split; [lia|]. split; [exact Hc|].
    split; [by apply some_isNear_8|].
    eapply Forall_impl; [exact Hbefore|]. intros c'. apply some_isNear_8_false.
Qed.

(** C3. The curve-level hit test returns [i] exactly when curve [i] is
    the first curve, in store order, with a point whose squared
    distance to the pointer is at most 64, and [-1] exactly when no
    curve has such a point; so a pointer within 8 pixels of exactly one
    curve yields that curve's index. The squared distance and the
    comparison are those of binary64 floats. *)
Theorem hitIndex_first_curve_within_8px (curves : list Curve) (pos : Point) :
  (forall i : nat,
     hitIndex curves pos = Z.of_nat i <->
     (exists c, curves !! i = Some c /\ within_8px pos c) /\
     (forall j c', j < i -> curves !! j = Some c' -> ~ within_8px pos c')) /\
  (hitIndex curves pos = (-1)%Z <->
     forall c, c ∈ curves -> ~ within_8px pos c) /\
  (forall (i : nat) c,
     curves !! i = Some c -> within_8px pos c ->
     (forall j c', curves !! j = Some c' -> within_8px pos c' -> j = i) ->
     hitIndex curves pos = Z.of_nat i).
Proof.
  assert (Hfirst : forall i : nat,
    (exists c, curves !! i = Some c /\ within_8px pos c) ->
    (forall j c', j < i -> curves !! j = Some c' -> ~ within_8px pos c') ->
    hitIndex curves pos = Z.of_nat i).
  { intros i (c & Hc & Hhit) Hbefore.
    destruct (hitIndex_cases curves pos) as [[_ Hall]|(i' & c' & -> & Hc' & Hhit' & Hbefore')].
    - rewrite Forall_forall in Hall. exfalso.
      apply (Hall c); [|exact Hhit]. by eapply list_elem_of_lookup_2.
    - f_equal. destruct (Nat.lt_trichotomy i' i) as [Hlt|[->|Hgt]]; [|reflexivity|].
      + exfalso. by apply (Hbefore i' c').
      + exfalso. rewrite Forall_forall in Hbefore'.
        apply (Hbefore' c); [|exact Hhit].
        apply list_elem_of_lookup. exists i.
        rewrite lookup_take_lt by lia. exact Hc. }
  split; [|split].
  - intros i. split; [|intros [? ?]; by apply Hfirst].
    intros Hi.
    destruct (hitIndex_cases curves pos) as [[Hm _]|(i' & c' & Hi' & Hc' & Hhit' & Hbefore')].
    + lia.
    + assert (i' = i) as -> by lia.
      split; [by exists c'|].
      intros j c Hj Hc. rewrite Forall_forall in Hbefore'. apply Hbefore'.
      apply list_elem_of_lookup. exists j. by rewrite lookup_take_lt by lia.
  - split.
    + intros Hm.
      destruct (hitIndex_cases curves pos) as [[_ Hall]|(i' & c' & Hi' & _)]; [|lia].
      by rewrite Forall_forall in Hall.
    + intros Hnone.
      destruct (hitIndex_cases curves pos) as [[Hm _]|(i' & c' & _ & Hc' & Hhit' & _)];
        [exact Hm|].
      exfalso. apply (Hnone c'); [|exact Hhit']. by eapply list_elem_of_lookup_2.
  - intros i c Hc Hhit Honly. apply Hfirst; [by exists c|].
    intros j c' Hj Hc' Hhit'. specialize (Honly j c' Hc' Hhit'). lia.
Qed.

Lemma hitIndex_first_curve_within_8px_witness :
  hitIndex [[mkPoint 0 0; mkPoint 10 0; mkPoint 20 0]; [mkPoint 100 100; mkPoint 110 100]]
           (mkPoint 10 0) = 0%Z.
Proof.
  refine (proj2 (proj2 (hitIndex_first_curve_within_8px
            [[mkPoint 0 0; mkPoint 10 0; mkPoint 20 0]; [mkPoint 100 100; mkPoint 110 100]]
            (mkPoint 10 0)))
          0 [mkPoint 0 0; mkPoint 10 0; mkPoint 20 0] eq_refl _ _).
  - exists (mkPoint 10 0). split; [|reflexivity].
    apply list_elem_of_In. right. left. reflexivity.
  - intros [|[|j]] c' Hc' (pt & Hin & Hnear); [reflexivity| |discriminate].
    exfalso. injection Hc' as <-.
    apply list_elem_of_In in Hin.
    destruct Hin as [<-|[<-|[]]]; vm_compute in Hnear; discriminate.
Defined.

(** ** Processing the queue *)

Lemma flush_app (t1 t2 : list Effect) (st : State) :
  flush (t1 ++ t2) st =
  match flush t1 st with
  | Normal st' => flush t2 st'
  | Abrupt e => Abrupt e
  end.
Proof.
  revert st. induction t1 as [|eff t1 IH]; intros st; [reflexivity|].
  destruct eff as [op|u| |c]; cbn [app flush]; try apply IH.
  destruct (apply_update u st); [apply IH|reflexivity].
Qed.

Lemma flush_paint (ops : list CanvasOp) (st : State) :
  flush (ctx <$> ops) st = Normal st.
Proof. induction ops as [|op ops IH]; [reflexivity|exact IH]. Qed.

(** ** The commit key *)

Lemma finalize_stroke_style_paints (props : Props) :
  exists ops, paints (finalize_stroke_style props) ops.
Proof.
  unfold finalize_stroke_style, paints.
  destruct (String.eqb (strokeStyle props) "dashed");
    [|destruct (String.eqb (strokeStyle props) "dotted");
      [|destruct (String.eqb (strokeStyle props) "double")]];
    eexists [_; _; _; _]; reflexivity.
Qed.

Lemma finalize_curve_paints (props : Props) (curve : Curve) (idx : nat) :
  exists ops, paints (finalize_curve props curve idx) ops.
Proof.
  unfold finalize_curve.
  destruct (Nat.ltb_spec (length curve) 2) as [Hshort|Hlong];
    [exists []; apply paints_ret|].
  destruct (context_available props); cbn [negb]; [|exists []; apply paints_ret].
  destruct (finalize_stroke_style_paints props) as [style Hstyle].
  eexists.
  apply paints_bind; [by apply finalize_path_paints|].
  apply paints_bind; [exact Hstyle|].
  eapply paints_bind; apply paints_emit.
Qed.

(** The effects of a commit, in program order: the canvas is cleared
    when there is one, the five updates are queued around the call of
    [setActiveTool(null)], the curves are painted, and [onFinishCurve]
    receives the committed points. *)
Lemma handleKeyDown_commit (props : Props) (cl : State) (e : KeyboardEvent) :
  key e = "Enter" -> drawing cl = true -> 2 <= length (currentCurve cl) ->
  exists cleared painted,
    handleKeyDown props cl e =
    ((ctx <$> cleared) ++
     [set (setCurves (updater (fun prev => Normal (prev ++ [currentCurve cl]))));
      set (setCurrentCurve (value []));
      set (setMousePos (value None));
      set (setDrawing (value false));
      call_setActiveTool_null;
      set (setSelectedCurveIndex (value None))] ++
     (ctx <$> painted) ++
     (if has_onFinishCurve props then [call_onFinishCurve (currentCurve cl)] else []),
     Normal tt).
Proof.
  intros Hkey Hdrawing Hlen. unfold handleKeyDown.
  rewrite Hkey, Hdrawing. cbn [String.eqb Ascii.eqb Bool.eqb andb].
  destruct (Nat.ltb_spec 1 (length (currentCurve cl))) as [_|]; [|lia].
  set (allCurves := (curves cl ++ [currentCurve cl]) ++ [currentCurve cl]).
  destruct (paints_forEach_from (finalize_curve props) allCurves
              (fun v idx _ => finalize_curve_paints props v idx) 0) as [painted Hpainted].
  unfold forEach. rewrite Hpainted.
  assert (Hclear : exists cleared,
    match canvasRef_current props with
    | Some canvas =>
        if has_context2d canvas
        then emit (ctx (clearRect 0 0 (width canvas) (height canvas)))
        else ret tt
    | None => ret tt
    end = (ctx <$> cleared, Normal tt)).
  { destruct (canvasRef_current props) as [canvas|]; [|by exists []].
    destruct (has_context2d canvas); [by eexists [_]|by exists []]. }
  destruct Hclear as [cleared ->].
  exists cleared, painted.
  rewrite bind_Normal.
  destruct (has_onFinishCurve props); cbn; by rewrite ?app_nil_r.
Qed.

Lemma onKeyDown_commit (props : Props) (st : State) (e : KeyboardEvent) :
  key e = "Enter" -> drawing st = true -> 2 <= length (currentCurve st) ->
  onKeyDown props st e =
  Normal {| curves := curves st ++ [currentCurve st];
            currentCurve := [];
            selectedCurveIndex := None;
            dragging := dragging st;
            mousePos := None;
            drawing := false |}.
Proof.
  intros Hkey Hdrawing Hlen. unfold onKeyDown, process.
  destruct (handleKeyDown_commit props st e Hkey Hdrawing Hlen)
    as (cleared & painted & ->).
  rewrite flush_app, flush_paint.
  cbn [app flush apply_update apply_action with_cell].
  rewrite flush_app, flush_paint.
  by destruct (has_onFinishCurve props).
Qed.

Lemma handleKeyDown_ignored (props : Props) (cl : State) (e : KeyboardEvent) :
  length (currentCurve cl) <= 1 -> handleKeyDown props cl e = ret tt.
Proof.
  intros Hlen. unfold handleKeyDown.
  destruct (Nat.ltb_spec 1 (length (currentCurve cl))) as [|_]; [lia|].
  by rewrite andb_false_r.
Qed.

(** C1. In a Drawing state whose Active Curve has at least 2 points the
    commit key is processed to completion, and in the state it leaves
    the committed curves are the former ones followed by one new curve,
    the points of the former Active Curve in their order; the Active
    Curve is empty, the mode is Idle and the selection index is null. *)
Theorem commit_appends_active_curve (props : Props) (st : State) (e : KeyboardEvent) :
  key e = "Enter" ->
  mode st = Drawing ->
  2 <= length (currentCurve st) ->
  exists st',
    onKeyDown props st e = Normal st' /\
    length (curves st') = S (length (curves st)) /\
    take (length (curves st)) (curves st') = curves st /\
    last (curves st') = Some (currentCurve st) /\
    currentCurve st' = [] /\
    mode st' = Idle /\
    drawing st' = false /\
    selectedCurveIndex st' = None.
Proof.
  intros Hkey Hmode Hlen.
  assert (Hdrawing : drawing st = true).
  { unfold mode in Hmode. destruct (drawing st); [reflexivity|].
    by destruct (selectedCurveIndex st), (dragging st). }
  eexists. split; [by apply onKeyDown_commit|]. cbn.
  split; [rewrite length_app; cbn; lia|].
  split; [by rewrite take_app_length|].
  split; [by rewrite last_snoc|].
  done.
Qed.

Lemma commit_appends_active_curve_witness :
  exists st',
    onKeyDown (mkProps true None "#000" "solid" 2 false)
      (mkState [] [mkPoint 10 10; mkPoint 50 10] None None None true)
      (mkKeyboardEvent "Enter") = Normal st' /\
    curves st' = [[mkPoint 10 10; mkPoint 50 10]] /\ mode st' = Idle.
Proof.
  destruct (commit_appends_active_curve (mkProps true None "#000" "solid" 2 false)
              (mkState [] [mkPoint 10 10; mkPoint 50 10] None None None true)
              (mkKeyboardEvent "Enter") eq_refl eq_refl ltac:(cbn; lia))
    as (st' & Hrun & _ & _ & _ & _ & Hmode & _).
  exists st'. split; [exact Hrun|].
  split; [|exact Hmode].
  vm_compute in Hrun. by injection Hrun as <-.
Defined.

(** C5. In a Drawing state whose Active Curve has 0 or 1 points the
    commit key queues nothing: the handler returns at once, and the
    state (committed curves, Active Curve, mode Drawing) is the one it
    found. *)
Theorem commit_refused_below_two_points (props : Props) (st : State) (e : KeyboardEvent) :
  mode st = Drawing ->
  length (currentCurve st) <= 1 ->
  handleKeyDown props st e = ret tt /\
  exists st',
    onKeyDown props st e = Normal st' /\
    curves st' = curves st /\
    currentCurve st' = currentCurve st /\
    mode st' = Drawing /\
    st' = st.
Proof.
  intros Hmode Hlen.
  split; [by apply handleKeyDown_ignored|].
  exists st. unfold onKeyDown, process.
  by rewrite handleKeyDown_ignored.
Qed.

Lemma commit_refused_below_two_points_witness :
  onKeyDown (mkProps true None "#000" "solid" 2 false)
    (mkState [] [mkPoint 10 10] None None None true)
    (mkKeyboardEvent "Enter")
  = Normal (mkState [] [mkPoint 10 10] None None None true).
Proof.
  destruct (commit_refused_below_two_points (mkProps true None "#000" "solid" 2 false)
              (mkState [] [mkPoint 10 10] None None None true)
              (mkKeyboardEvent "Enter") eq_refl ltac:(cbn; lia))
    as (_ & st' & Hrun & _ & _ & _ & ->).
  exact Hrun.
Defined.

(** ** Pointer-down *)

Lemma point_scan_cases (curve : Curve) (pos : Point) (n i : nat) :
  i + n = length curve ->
  (point_scan curve pos n i = ([], Normal false) /\
   Forall (fun pt => isNear pos pt 10 = false) (drop i curve)) \/
  (exists k pt, curve !! k = Some pt /\ isNear pos pt 10 = true /\
     Forall (fun pt' => isNear pos pt' 10 = false) (drop i (take k curve)) /\
     point_scan curve pos n i = ([set (setDragging (value (Some k)))], Normal true)).
Proof.
  revert i. induction n as [|n IH]; intros i Hi; cbn [point_scan].
  - left. split; [reflexivity|]. rewrite drop_ge by lia. constructor.
  - destruct (lookup_lt_is_Some_2 curve i) as [pt Hpt]; [lia|].
    rewrite Hpt. destruct (isNear pos pt 10) eqn:Hnear.
    + right. exists i, pt. split; [exact Hpt|]. split; [exact Hnear|].
      split; [|reflexivity].
      rewrite drop_ge; [constructor|]. rewrite length_take. lia.
    + destruct (IH (S i)) as [[Hrun Hall]|(k & pt' & Hk & Hnear' & Hall & Hrun)]; [lia|..].
      * left. split; [exact Hrun|].
        rewrite (drop_S curve pt i Hpt). by constructor.
      * right. exists k, pt'. split; [exact Hk|]. split; [exact Hnear'|].
        split; [|exact Hrun].
        destruct (decide (i < k)) as [Hlt|Hge].
        -- rewrite (drop_S (take k curve) pt i); [by constructor|].
           by rewrite lookup_take_lt.
        -- rewrite drop_ge; [constructor|]. rewrite length_take. lia.
Qed.

Lemma onMouseDown_transition (props : Props) (st : State) (e : MouseEvent) :
  pointer_down st (getMousePos props e) (onMouseDown props st e).
Proof.
  unfold onMouseDown, process, handleMouseDown.
  set (pos := getMousePos props e).
  destruct (drawing st) eqn:Hdrawing.
  { cbn. by apply down_append. }
  assert (Hrest : forall scan : Run bool,
    scan = ([], Normal false) -> no_point_hit st pos ->
    pointer_down st pos
      (match (returned ← scan;
              if (returned : bool) then ret tt
              else
                let hit := hitIndex (curves st) pos in
                if negb (Z.eqb hit (-1)) then
                  emit (set (setSelectedCurveIndex (value (Some (Z.to_nat hit)))))
                else
                  emit (set (setCurrentCurve (value [pos])));;
                  emit (set (setDrawing (value true)))) with
       | (effects, Normal _) => flush effects st
       | (_, Abrupt a) => Abrupt a
       end)).
  { intros scan -> Hmiss. rewrite bind_Normal. cbn [fst snd app].
    destruct (hitIndex_cases (curves st) pos) as [[Hm _]|(i & c & Hi & _)].
    - rewrite Hm. cbn. by apply down_start.
    - rewrite Hi. destruct (Z.eqb_spec (Z.of_nat i) (-1)); [lia|].
      cbn. rewrite Nat2Z.id. by apply down_select. }
  destruct (selectedCurveIndex st) as [c|] eqn:Hsel.
  - destruct (curves st !! c) as [curve|] eqn:Hc.
    + destruct (point_scan_cases curve pos (length curve) 0)
        as [[Hrun Hall]|(k & pt & Hk & Hnear & Hall & Hrun)]; [lia|..].
      * apply Hrest; [exact Hrun|]. unfold no_point_hit. rewrite Hsel. by exists curve.
      * rewrite Hrun. cbn. by eapply down_drag.
    + cbn. by eapply down_stale.
  - apply Hrest; [reflexivity|]. unfold no_point_hit. by rewrite Hsel.
Qed.

(** ** Pointer-move *)

Lemma onMouseMove_idle (props : Props) (st : State) (e : MouseEvent) :
  dragging st = None \/ selectedCurveIndex st = None ->
  onMouseMove props st e = Normal (put_mousePos (Some (getMousePos props e)) st).
Proof.
  unfold onMouseMove, process, handleMouseMove.
  intros [Hnone|Hnone]; rewrite Hnone; [reflexivity|].
  by destruct (dragging st).
Qed.

Lemma onMouseMove_stale (props : Props) (st : State) (e : MouseEvent) (c k : nat) :
  selectedCurveIndex st = Some c -> dragging st = Some k ->
  curves st !! c = None ->
  onMouseMove props st e = Abrupt TypeError.
Proof.
  intros Hsel Hdrag Hc. unfold onMouseMove, process, handleMouseMove.
  rewrite Hsel, Hdrag. cbn. by rewrite Hc.
Qed.

Lemma onMouseMove_drag (props : Props) (st : State) (e : MouseEvent)
      (c k : nat) (curve : Curve) :
  selectedCurveIndex st = Some c -> dragging st = Some k ->
  curves st !! c = Some curve -> k < length curve ->
  onMouseMove props st e =
  Normal (put_curves (<[c := <[k := getMousePos props e]> curve]> (curves st))
            (put_mousePos (Some (getMousePos props e)) st)).
Proof.
  intros Hsel Hdrag Hc Hk. unfold onMouseMove, process, handleMouseMove.
  rewrite Hsel, Hdrag. cbn. rewrite Hc.
  unfold array_store. rewrite decide_True by exact Hk.
  rewrite decide_True by (by eapply lookup_lt_Some).
  reflexivity.
Qed.

(** A drag index one past the last point is not skipped: the pointer
    position is appended to the selected curve. *)
Lemma onMouseMove_append (props : Props) (st : State) (e : MouseEvent)
      (c : nat) (curve : Curve) :
  selectedCurveIndex st = Some c -> dragging st = Some (length curve) ->
  curves st !! c = Some curve ->
  onMouseMove props st e =
  Normal (put_curves (<[c := curve ++ [getMousePos props e]]> (curves st))
            (put_mousePos (Some (getMousePos props e)) st)).
Proof.
  intros Hsel Hdrag Hc. unfold onMouseMove, process, handleMouseMove.
  rewrite Hsel, Hdrag. cbn. rewrite Hc.
  unfold array_store. rewrite decide_False by lia.
  rewrite decide_True by reflexivity.
  rewrite decide_True by (by eapply lookup_lt_Some).
  reflexivity.
Qed.

(** C4. With a selection index [c] and a drag index [k] that reference
    an existing point, a pointer-move to [p] is processed to completion
    and leaves [p] at point [k] of curve [c]; every other point of every
    committed curve, the number of committed curves and of points in
    each, the Active Curve, the selection index, the drag index and the
    drawing flag are as before. *)
Theorem drag_moves_one_point (props : Props) (st : State) (e : MouseEvent)
        (c k : nat) (curve : Curve) :
  selectedCurveIndex st = Some c ->
  dragging st = Some k ->
  curves st !! c = Some curve ->
  k < length curve ->
  let p := getMousePos props e in
  exists st',
    onMouseMove props st e = Normal st' /\
    point_at (curves st') c k = Some p /\
    (forall c' k', c' <> c \/ k' <> k ->
       point_at (curves st') c' k' = point_at (curves st) c' k') /\
    length (curves st') = length (curves st) /\
    (forall c', length <$> curves st' !! c' = length <$> curves st !! c') /\
    currentCurve st' = currentCurve st /\
    selectedCurveIndex st' = Some c /\
    dragging st' = Some k /\
    drawing st' = drawing st.
Proof.
  intros Hsel Hdrag Hc Hk p.
  assert (Hcur : c < length (curves st)) by (by eapply lookup_lt_Some).
  eexists. split; [by eapply onMouseMove_drag|]. cbn. fold p.
  split; [|split; [|split; [|split]]].
  - unfold point_at. rewrite list_lookup_insert_eq by exact Hcur. cbn.
    by rewrite list_lookup_insert_eq.
  - intros c' k' Hother. unfold point_at.
    destruct (decide (c' = c)) as [->|Hne].
    + rewrite list_lookup_insert_eq, Hc by exact Hcur. cbn.
      destruct Hother as [?|?]; [done|]. by rewrite list_lookup_insert_ne.
    + by rewrite list_lookup_insert_ne.
  - by rewrite length_insert.
  - intros c'. destruct (decide (c' = c)) as [->|Hne].
    + rewrite list_lookup_insert_eq, Hc by exact Hcur. cbn.
      by rewrite length_insert.
    + by rewrite list_lookup_insert_ne.
  - done.
Qed.

Lemma drag_moves_one_point_witness :
  exists st',
    onMouseMove (mkProps false (Some (mkCanvas 300 200 0 0 true)) "#000" "solid" 2 false)
      (mkState [[mkPoint 0 0; mkPoint 10 0; mkPoint 20 0]] [] (Some 0) (Some 1) None false)
      (mkMouseEvent 10 40) = Normal st' /\
    curves st' = [[mkPoint 0 0; mkPoint 10 40; mkPoint 20 0]].
Proof.
  destruct (drag_moves_one_point
              (mkProps false (Some (mkCanvas 300 200 0 0 true)) "#000" "solid" 2 false)
              (mkState [[mkPoint 0 0; mkPoint 10 0; mkPoint 20 0]] [] (Some 0) (Some 1) None false)
              (mkMouseEvent 10 40) 0 1 [mkPoint 0 0; mkPoint 10 0; mkPoint 20 0]
              eq_refl eq_refl eq_refl ltac:(cbn; lia))
    as (st' & Hrun & _).
  exists st'. split; [exact Hrun|].
  vm_compute in Hrun. by injection Hrun as <-.
Defined.

Lemma onMouseMove_frame (props : Props) (st st' : State) (e : MouseEvent) :
  onMouseMove props st e = Normal st' ->
  currentCurve st' = currentCurve st /\
  selectedCurveIndex st' = selectedCurveIndex st /\
  dragging st' = dragging st /\
  mousePos st' = Some (getMousePos props e) /\
  drawing st' = drawing st.
Proof.
  unfold onMouseMove, process, handleMouseMove.
  destruct (dragging st) as [k|] eqn:Hdrag, (selectedCurveIndex st) as [c|] eqn:Hsel;
    cbn; try (intros [= <-]; cbn; by rewrite ?Hdrag, ?Hsel).
  destruct (curves st !! c) as [curve|]; [|discriminate].
  destruct (array_store curve k _) as [updated|]; [|discriminate].
  destruct (array_store (curves st) c updated); [|discriminate].
  intros [= <-]. cbn. by rewrite ?Hdrag, ?Hsel.
Qed.

Lemma onMouseMove_sparse (props : Props) (st : State) (e : MouseEvent)
      (c k : nat) (curve : Curve) :
  selectedCurveIndex st = Some c -> dragging st = Some k ->
  curves st !! c = Some curve -> length curve < k ->
  onMouseMove props st e = Abrupt SparseArray.
Proof.
  intros Hsel Hdrag Hc Hk. unfold onMouseMove, process, handleMouseMove.
  rewrite Hsel, Hdrag. cbn. rewrite Hc.
  unfold array_store. rewrite !decide_False by lia. reflexivity.
Qed.

(** Every way a pointer-move can end. *)
Lemma onMouseMove_cases (props : Props) (st : State) (e : MouseEvent) :
  let p := getMousePos props e in
  onMouseMove props st e = Normal (put_mousePos (Some p) st) \/
  (exists c k curve,
     selectedCurveIndex st = Some c /\ dragging st = Some k /\
     curves st !! c = Some curve /\
     ((k < length curve /\
       onMouseMove props st e =
       Normal (put_curves (<[c := <[k := p]> curve]> (curves st))
                 (put_mousePos (Some p) st))) \/
      (k = length curve /\
       onMouseMove props st e =
       Normal (put_curves (<[c := curve ++ [p]]> (curves st))
                 (put_mousePos (Some p) st))) \/
      (length curve < k /\ onMouseMove props st e = Abrupt SparseArray))) \/
  (exists c, selectedCurveIndex st = Some c /\ curves st !! c = None /\
     onMouseMove props st e = Abrupt TypeError).
Proof.
  intros p.
  destruct (selectedCurveIndex st) as [c|] eqn:Hsel;
    [|left; apply onMouseMove_idle; by right].
  destruct (dragging st) as [k|] eqn:Hdrag;
    [|left; apply onMouseMove_idle; by left].
  destruct (curves st !! c) as [curve|] eqn:Hc.
  - right. left. exists c, k, curve. repeat (split; [done|]).
    destruct (Nat.lt_trichotomy k (length curve)) as [Hlt|[->|Hgt]].
    + left. split; [exact Hlt|]. by eapply onMouseMove_drag.
    + right. left. split; [reflexivity|]. by eapply onMouseMove_append.
    + right. right. split; [exact Hgt|]. by eapply onMouseMove_sparse.
  - right. right. exists c. repeat (split; [done|]). by eapply onMouseMove_stale.
Qed.

(** ** Indices that reference nothing *)

Lemma onMouseDown_drawing (props : Props) (st : State) (e : MouseEvent) :
  drawing st = true ->
  onMouseDown props st e
  = Normal (put_currentCurve (currentCurve st ++ [getMousePos props e]) st).
Proof.
  intros Hdrawing. unfold onMouseDown, process, handleMouseDown.
  by rewrite Hdrawing.
Qed.



(** A selection index that references no curve: outside Drawing
    pointer-down reads [.length] of [undefined], and with a drag index
    set the updater queued by pointer-move spreads [undefined]. *)
Lemma stale_selection_raises_TypeError :
  let props := mkProps false (Some (mkCanvas 300 200 0 0 true)) "#000" "solid" 2 false in
  let st := mkState [[mkPoint 0 0; mkPoint 10 0; mkPoint 20 0]] [] (Some 1) (Some 0) None false in
  onMouseDown props st (mkMouseEvent 10 2) = Abrupt TypeError /\
  onMouseMove props st (mkMouseEvent 10 2) = Abrupt TypeError.
Proof. split; reflexivity. Qed.




(** ** Clearing the selection and the drag index *)

Lemma mode_Drawing (st : State) : mode st = Drawing <-> drawing st = true.
Proof.
  unfold mode. destruct (drawing st); [done|].
  by destruct (selectedCurveIndex st), (dragging st).
Qed.

Lemma onKeyDown_cases (props : Props) (st : State) (e : KeyboardEvent) :
  (key e = "Enter" /\ drawing st = true /\ 2 <= length (currentCurve st) /\
   onKeyDown props st e =
   Normal (mkState (curves st ++ [currentCurve st]) [] None (dragging st) None false)) \/
  onKeyDown props st e = Normal st.
Proof.
  destruct (String.eqb_spec (key e) "Enter") as [Hkey|Hkey];
    [destruct (drawing st) eqn:Hdrawing;
     [destruct (Nat.ltb_spec 1 (length (currentCurve st))) as [Hlen|Hlen]|]|].
  - left. repeat split; try done. by apply onKeyDown_commit.
  - right. unfold onKeyDown, process. by rewrite handleKeyDown_ignored.
  - right. unfold onKeyDown, process, handleKeyDown.
    by rewrite Hdrawing, andb_false_r.
  - right. unfold onKeyDown, process, handleKeyDown.
    by destruct (String.eqb_spec (key e) "Enter").
Qed.

Lemma onMouseUp_result (st : State) :
  onMouseUp st = Normal (put_mousePos None (put_dragging None st)).
Proof. reflexivity. Qed.

(** From a state whose drag index is null, every event that leaves the
    selection index null leaves the drag index null; in particular a
    successful commit is processed to completion with both null. *)
Lemma selection_cleared_keeps_null_drag (props : Props) (st : State) (ev : Event) :
  dragging st = None ->
  (forall st', handle props st ev = Normal st' ->
     selectedCurveIndex st' = None -> dragging st' = None) /\
  (forall e, ev = keydown e -> key e = "Enter" -> mode st = Drawing ->
     2 <= length (currentCurve st) ->
     exists st', handle props st ev = Normal st' /\
       selectedCurveIndex st' = None /\ dragging st' = None).
Proof.
  intros Hdrag. split.
  - intros st' Hrun Hsel. destruct ev as [e|e|e|e]; cbn [handle] in Hrun.
    + pose proof (onMouseDown_transition props st e) as Hstep.
      rewrite Hrun in Hstep.
      inversion Hstep; subst; cbn in *; congruence.
    + apply onMouseMove_frame in Hrun. destruct Hrun as (_ & _ & -> & _). exact Hdrag.
    + rewrite onMouseUp_result in Hrun. by injection Hrun as <-.
    + destruct (onKeyDown_cases props st e) as [(_ & _ & _ & Hcommit)|Hsame];
        rewrite Hrun in *.
      * by injection Hcommit as ->.
      * by injection Hsame as ->.
  - intros e -> Hkey Hmode Hlen. cbn [handle].
    apply mode_Drawing in Hmode.
    eexists. split; [by apply onKeyDown_commit|]. by split.
Qed.


(** ** Pointer-up *)

(** C8, as the code has it. Pointer-up is processed to completion in
    every state: it clears the drag index, so that a Dragging state
    becomes Selected with the same curve, and it clears the one pointer
    position the component tracks, which is the position the
    rubber-band preview of [draw] reads; the preview segment is then
    not painted. Committed curves, Active Curve, selection index and
    drawing flag are as before. *)
Theorem pointer_up_clears_drag_and_pointer (st : State) :
  exists st',
    onMouseUp st = Normal st' /\
    dragging st' = None /\
    mousePos st' = None /\
    selectedCurveIndex st' = selectedCurveIndex st /\
    curves st' = curves st /\
    currentCurve st' = currentCurve st /\
    drawing st' = drawing st /\
    (forall c k, mode st = Dragging c k -> mode st' = Selected c) /\
    (forall props, draw_rubber_band props st' = ret tt).
Proof.
  eexists. split; [apply onMouseUp_result|]. cbn.
  repeat (split; [reflexivity|]). split; [|reflexivity].
  intros c k. unfold mode. cbn.
  destruct (drawing st); [discriminate|].
  destruct (selectedCurveIndex st), (dragging st); congruence.
Qed.

Lemma pointer_up_clears_drag_and_pointer_witness :
  exists st',
    onMouseUp (mkState [[mkPoint 0 0; mkPoint 10 40; mkPoint 20 0]] [] (Some 0) (Some 1)
                 (Some (mkPoint 10 40)) false) = Normal st' /\
    mode st' = Selected 0.
Proof.
  destruct (pointer_up_clears_drag_and_pointer
              (mkState [[mkPoint 0 0; mkPoint 10 40; mkPoint 20 0]] [] (Some 0) (Some 1)
                 (Some (mkPoint 10 40)) false))
    as (st' & Hrun & _ & _ & _ & _ & _ & _ & Hmode & _).
  exists st'. split; [exact Hrun|]. exact (Hmode 0 1 eq_refl).
Defined.

(** C8, as the specification has it, fails: while Drawing with one
    point placed and the pointer known at (30,30), the preview segment
    is painted; pointer-up sets that same pointer position to null, and
    the preview is gone. *)
Lemma pointer_up_clears_preview_pointer :
  let props := mkProps true (Some (mkCanvas 300 200 0 0 true)) "#000" "solid" 2 false in
  let st := mkState [] [mkPoint 10 10] None None (Some (mkPoint 30 30)) true in
  exists st',
    onMouseUp st = Normal st' /\
    mousePos st = Some (mkPoint 30 30) /\
    mousePos st' = None /\
    draw_rubber_band props st =
      (ctx <$> [beginPath; moveTo 10 10; lineTo 30 30; set_strokeStyle "#aaa";
                setLineDash [2%float; 2%float]; set_lineWidth 2; stroke; setLineDash []],
       Normal tt) /\
    draw_rubber_band props st' = ([], Normal tt).
Proof. eexists. split; [reflexivity|]. by cbn. Qed.

(** ** The listeners *)

Lemma deliver_all_unsubscribed (props : Props) (st : State) (evs : list Event) :
  subscribed props st = false -> deliver_all props st evs = Normal st.
Proof.
  intros Hoff. induction evs as [|ev evs IH]; [reflexivity|].
  cbn [deliver_all]. unfold deliver. by rewrite Hoff.
Qed.

(** C10. The listeners are attached only in states whose [drawing]
    flag is true. In a state where it is false no event reaches a
    handler: whatever sequence of pointer and key events arrives, the
    state stays as it is. A successful commit leaves such a state, so
    after it no curve is selected, no point dragged and no new Active
    Curve started. *)
Theorem events_ignored_once_not_drawing (props : Props) (st : State) :
  (subscribed props st = true -> drawing st = true) /\
  (drawing st = false -> forall evs, deliver_all props st evs = Normal st) /\
  (forall e, key e = "Enter" -> subscribed props st = true ->
     2 <= length (currentCurve st) ->
     exists st', deliver props st (keydown e) = Normal st' /\
       drawing st' = false /\
       forall evs, deliver_all props st' evs = Normal st').
Proof.
  assert (Hoff : forall s, drawing s = false -> subscribed props s = false).
  { intros s Hs. unfold subscribed. by rewrite Hs. }
  split; [|split].
  - unfold subscribed. by intros [? _]%andb_true_iff.
  - intros Hidle evs. by apply deliver_all_unsubscribed, Hoff.
  - intros e Hkey Hon Hlen.
    assert (Hdrawing : drawing st = true).
    { unfold subscribed in Hon. by apply andb_true_iff in Hon as [? _]. }
    eexists. split; [|split].
    + unfold deliver. rewrite Hon. cbn [handle]. by apply onKeyDown_commit.
    + reflexivity.
    + intros evs. by apply deliver_all_unsubscribed, Hoff.
Qed.

Lemma events_ignored_once_not_drawing_witness :
  let props := mkProps true (Some (mkCanvas 300 200 0 0 true)) "#000" "solid" 2 false in
  let st := mkState [] [mkPoint 10 10; mkPoint 50 10] None None None true in
  exists st',
    deliver props st (keydown (mkKeyboardEvent "Enter")) = Normal st' /\
    drawing st' = false /\
    deliver_all props st'
      [mousedown (mkMouseEvent 10 10); mousedown (mkMouseEvent 200 150);
       mousemove (mkMouseEvent 20 20); mouseup (mkMouseEvent 20 20);
       keydown (mkKeyboardEvent "Enter")] = Normal st'.
Proof.
  destruct (proj2 (proj2 (events_ignored_once_not_drawing
              (mkProps true (Some (mkCanvas 300 200 0 0 true)) "#000" "solid" 2 false)
              (mkState [] [mkPoint 10 10; mkPoint 50 10] None None None true)))
              (mkKeyboardEvent "Enter") eq_refl eq_refl ltac:(cbn; lia))
    as (st' & Hrun & Hidle & Hstay).
  exists st'. split; [exact Hrun|]. split; [exact Hidle|]. apply Hstay.
Defined.

(** ** The mounted component *)

(** An event delivered to a state with no selection and no drag is
    processed to completion and leaves such a state. *)
Lemma deliver_unselected (props : Props) (st : State) (ev : Event) :
  selectedCurveIndex st = None -> dragging st = None ->
  exists st', deliver props st ev = Normal st' /\
    selectedCurveIndex st' = None /\ dragging st' = None.
Proof.
  intros Hsel Hdrag. unfold deliver.
  destruct (subscribed props st) eqn:Hon; [|by exists st].
  assert (Hdrawing : drawing st = true).
  { unfold subscribed in Hon. by apply andb_true_iff in Hon as [? _]. }
  destruct ev as [e|e|e|e]; cbn [handle].
  - eexists. split; [by apply onMouseDown_drawing|]. by split.
  - eexists. split; [apply onMouseMove_idle; by left|]. by split.
  - eexists. split; [apply onMouseUp_result|]. by split.
  - destruct (onKeyDown_cases props st e) as [(_ & _ & _ & ->)| ->];
      eexists; (split; [reflexivity|]); by split.
Qed.

(** From its initial state the mounted component processes every
    sequence of events to completion, and it never holds a selection or
    a drag index: pointer-down reaches its handler only while
    [drawing] is true, where it appends to the Active Curve. *)
Lemma mounted_component_never_selects (props : Props) (evs : list Event) :
  exists st, deliver_all props (initialState props) evs = Normal st /\
    selectedCurveIndex st = None /\ dragging st = None.
Proof.
  assert (Hinv : forall st, selectedCurveIndex st = None -> dragging st = None ->
    exists st', deliver_all props st evs = Normal st' /\
      selectedCurveIndex st' = None /\ dragging st' = None).
  { induction evs as [|ev evs IH]; intros st Hsel Hdrag; [by exists st|].
    destruct (deliver_unselected props st ev Hsel Hdrag) as (st1 & Hstep & Hsel1 & Hdrag1).
    cbn [deliver_all]. rewrite Hstep. by apply IH. }
  by apply Hinv.
Qed.

(** ** The redraw never throws *)

Lemma draw_stroke_style_paints (props : Props) :
  exists ops, paints (draw_stroke_style props) ops.
Proof.
  unfold draw_stroke_style, paints.
  destruct (String.eqb (strokeStyle props) "dashed");
    [eexists [_; _; _]; reflexivity|].
  destruct (String.eqb (strokeStyle props) "dotted");
    [eexists [_; _; _]; reflexivity|].
  destruct (String.eqb (strokeStyle props) "double");
    [eexists [_; _; _; _]|eexists [_; _; _]]; reflexivity.
Qed.

Lemma draw_curve_paints (props : Props) (st : State) (curve : Curve) (idx : nat) :
  exists ops, paints (draw_curve props st curve idx) ops.
Proof.
  unfold draw_curve.
  destruct (Nat.ltb_spec (length curve) 2) as [Hshort|Hlong];
    [exists []; apply paints_ret|].
  destruct (draw_stroke_style_paints props) as [style Hstyle].
  assert (Hmarkers : exists ops,
    paints (if is_selected st idx
            then forEach curve (fun pt _ => draw_marker props pt) else ret tt) ops).
  { destruct (is_selected st idx); [|exists []; apply paints_ret].
    apply paints_forEach_from. intros pt _ _. by eexists [_; _; _; _]. }
  destruct Hmarkers as [markers Hmarkers].
  eexists.
  apply paints_bind; [by apply draw_path_paints|].
  apply paints_bind; [exact Hstyle|].
  eapply paints_bind; [apply paints_emit|].
  eapply paints_bind; [apply paints_emit|exact Hmarkers].
Qed.

Lemma draw_rubber_band_paints (props : Props) (st : State) :
  exists ops, paints (draw_rubber_band props st) ops.
Proof.
  unfold draw_rubber_band.
  destruct (mousePos st) as [pointer|]; [|exists []; apply paints_ret].
  destruct (drawing st); cbn [andb]; [|exists []; apply paints_ret].
  destruct (Nat.ltb_spec 0 (length (currentCurve st))) as [Hlen|_];
    [|exists []; apply paints_ret].
  replace (Z.of_nat (length (currentCurve st)) - 1)%Z
    with (Z.of_nat (length (currentCurve st) - 1)) by lia.
  rewrite array_get_of_nat.
  destruct (lookup_lt_is_Some_2 (currentCurve st) (length (currentCurve st) - 1))
    as [lastPoint ->]; [lia|].
  by eexists [_; _; _; _; _; _; _; _].
Qed.

(** On every state and whatever the canvas, [draw] returns after
    painting: a missing canvas or context makes it paint nothing. *)
Lemma draw_paints (props : Props) (st : State) :
  exists ops, paints (draw props st) ops.
Proof.
  unfold draw.
  destruct (canvasRef_current props) as [canvas|]; [|exists []; apply paints_ret].
  destruct (has_context2d canvas); cbn [negb]; [|exists []; apply paints_ret].
  destruct (paints_forEach_from (draw_curve props st)
              (curves st ++
               (if drawing st && Nat.ltb 1 (length (currentCurve st))
                then [currentCurve st] else []))
              (fun v idx _ => draw_curve_paints props st v idx) 0) as [strokes Hstrokes].
  destruct (draw_rubber_band_paints props st) as [band Hband].
  eexists.
  eapply paints_bind; [apply paints_emit|].
  apply paints_bind; [exact Hstrokes|exact Hband].
Qed.

(** * More of the component *)

(** ** Counting canvas calls *)

Lemma count_ops_app (p : CanvasOp -> bool) (ops1 ops2 : list CanvasOp) :
  count_ops p (ops1 ++ ops2) = count_ops p ops1 + count_ops p ops2.
Proof. unfold count_ops. by rewrite List.filter_app, length_app. Qed.

Lemma canvas_ops_app (t1 t2 : list Effect) :
  canvas_ops (t1 ++ t2) = canvas_ops t1 ++ canvas_ops t2.
Proof. apply omap_app. Qed.

Lemma canvas_ops_ctx (ops : list CanvasOp) : canvas_ops (ctx <$> ops) = ops.
Proof.
  unfold canvas_ops. induction ops as [|op ops IH]; [reflexivity|].
  cbn. by rewrite IH.
Qed.

Lemma count_ops_spline_path (p : CanvasOp -> bool) (P : list Point) :
  (forall a b, p (moveTo a b) = false) ->
  (forall a b c d e f, p (bezierCurveTo a b c d e f) = false) ->
  count_ops p (spline_path P) = 0.
Proof.
  intros Hmove Hbezier. unfold spline_path, count_ops. cbn [List.filter].
  rewrite Hmove. induction (seq 0 (length P - 1)) as [|i l IH]; [reflexivity|].
  cbn [fmap list_fmap List.filter]. unfold spline_segment at 1.
  rewrite Hbezier. exact IH.
Qed.

Lemma draw_stroke_style_counts (props : Props) :
  exists ops, paints (draw_stroke_style props) ops /\
    count_ops is_stroke ops = 0 /\ count_ops is_arc ops = 0.
Proof.
  unfold draw_stroke_style, paints.
  destruct (String.eqb (strokeStyle props) "dashed");
    [eexists [_; _; _]; by split|].
  destruct (String.eqb (strokeStyle props) "dotted");
    [eexists [_; _; _]; by split|].
  destruct (String.eqb (strokeStyle props) "double");
    [eexists [_; _; _; _]|eexists [_; _; _]]; by split.
Qed.

Lemma draw_markers_counts (props : Props) (curve : Curve) (idx : nat) :
  exists ops,
    paints (forEach_from curve idx (fun pt _ => draw_marker props pt)) ops /\
    count_ops is_stroke ops = 0 /\ count_ops is_arc ops = length curve.
Proof.
  revert idx. induction curve as [|pt curve IH]; intros idx; cbn [forEach_from].
  - exists []. by split.
  - destruct (IH (S idx)) as (ops & Hops & Hstroke & Harc).
    exists ([beginPath; arc (x pt) (y pt) 5 0 (2 * Math_PI)%float;
             set_fillStyle (currentColor props); fill] ++ ops).
    split; [apply paints_bind; [reflexivity|exact Hops]|].
    rewrite !count_ops_app, Hstroke, Harc. by split.
Qed.

(** What the redraw paints for one curve: nothing below two points,
    else one stroked path, and one marker per point when the curve
    stands at the selected index. *)
Lemma draw_curve_counts (props : Props) (st : State) (curve : Curve) (idx : nat) :
  exists ops, paints (draw_curve props st curve idx) ops /\
    count_ops is_stroke ops = (if strokable curve then 1 else 0) /\
    count_ops is_arc ops =
      (if strokable curve && is_selected st idx then length curve else 0).
Proof.
  unfold draw_curve, strokable.
  destruct (Nat.ltb_spec (length curve) 2) as [Hshort|Hlong]; cbn [negb andb].
  { exists []. by split. }
  destruct (draw_stroke_style_counts props) as (style & Hstyle & Hstyle_s & Hstyle_a).
  assert (Hmarkers : exists ops,
    paints (if is_selected st idx
            then forEach curve (fun pt _ => draw_marker props pt) else ret tt) ops /\
    count_ops is_stroke ops = 0 /\
    count_ops is_arc ops = (if is_selected st idx then length curve else 0)).
  { destruct (is_selected st idx); [apply draw_markers_counts|].
    exists []. by split. }
  destruct Hmarkers as (markers & Hmarkers & Hmarkers_s & Hmarkers_a).
  eexists. split.
  - apply paints_bind; [by apply draw_path_paints|].
    apply paints_bind; [exact Hstyle|].
    apply (paints_bind _ _ [stroke]); [apply paints_emit|].
    apply (paints_bind _ _ [setLineDash []]); [apply paints_emit|exact Hmarkers].
  - rewrite !count_ops_app, Hstyle_s, Hstyle_a, Hmarkers_s, Hmarkers_a.
    change (beginPath :: spline_path curve) with ([beginPath] ++ spline_path curve).
    rewrite !count_ops_app, !count_ops_spline_path by done. by split.
Qed.

Lemma draw_curves_counts (props : Props) (st : State) (a : list Curve) (idx : nat) :
  exists ops, paints (forEach_from a idx (draw_curve props st)) ops /\
    count_ops is_stroke ops = length (List.filter strokable a) /\
    count_ops is_arc ops = marked_from st a idx.
Proof.
  revert idx. induction a as [|curve a IH]; intros idx; cbn [forEach_from].
  - exists []. split; [apply paints_ret|]. split; [reflexivity|].
    unfold marked_from. destruct (selectedCurveIndex st); [|reflexivity].
    by case_decide.
  - destruct (draw_curve_counts props st curve idx) as (ops1 & H1 & Hs1 & Ha1).
    destruct (IH (S idx)) as (ops2 & H2 & Hs2 & Ha2).
    exists (ops1 ++ ops2). split; [by apply paints_bind|].
    rewrite !count_ops_app, Hs1, Hs2, Ha1, Ha2. split.
    + cbn [List.filter]. by destruct (strokable curve).
    + unfold marked_from, is_selected.
      destruct (selectedCurveIndex st) as [c|];
        [|by rewrite andb_false_r].
      destruct (Nat.eqb_spec c idx) as [->|Hne].
      * destruct (decide (idx <= idx)); [|lia].
        destruct (decide (S idx <= idx)); [lia|].
        rewrite Nat.sub_diag. cbn. rewrite andb_true_r.
        destruct (strokable curve); lia.
      * rewrite andb_false_r. cbn [Nat.add].
        destruct (decide (idx <= c)) as [Hle|Hgt].
        -- destruct (decide (S idx <= c)); [|lia].
           replace (c - idx) with (S (c - S idx)) by lia. reflexivity.
        -- by destruct (decide (S idx <= c)); [lia|].
Qed.

Lemma draw_rubber_band_counts (props : Props) (st : State) :
  exists ops, paints (draw_rubber_band props st) ops /\
    count_ops is_stroke ops = (if rubber_band_shown st then 1 else 0) /\
    count_ops is_arc ops = 0.
Proof.
  unfold draw_rubber_band, rubber_band_shown.
  destruct (mousePos st) as [pointer|];
    [|exists []; by rewrite andb_false_r].
  destruct (drawing st); cbn [andb]; [|by exists []].
  destruct (Nat.ltb_spec 0 (length (currentCurve st))) as [Hlen|_]; [|by exists []].
  replace (Z.of_nat (length (currentCurve st)) - 1)%Z
    with (Z.of_nat (length (currentCurve st) - 1)) by lia.
  rewrite array_get_of_nat.
  destruct (lookup_lt_is_Some_2 (currentCurve st) (length (currentCurve st) - 1))
    as [lastPoint ->]; [lia|].
  by eexists [_; _; _; _; _; _; _; _].
Qed.

Lemma draw_counts (props : Props) (st : State) (canvas : Canvas) :
  canvasRef_current props = Some canvas -> has_context2d canvas = true ->
  exists ops, paints (draw props st) (clearRect 0 0 (width canvas) (height canvas) :: ops) /\
    count_ops is_stroke ops =
      length (List.filter strokable (drawn_curves st)) +
      (if rubber_band_shown st then 1 else 0) /\
    count_ops is_arc ops = marked_from st (drawn_curves st) 0.
Proof.
  intros Hcanvas Hctx. unfold draw. rewrite Hcanvas, Hctx. cbn [negb].
  destruct (draw_curves_counts props st (drawn_curves st) 0) as (strokes & H1 & Hs1 & Ha1).
  destruct (draw_rubber_band_counts props st) as (band & H2 & Hs2 & Ha2).
  exists (strokes ++ band). split.
  - apply (paints_bind _ _ [_]); [apply paints_emit|].
    apply paints_bind; [exact H1|exact H2].
  - rewrite !count_ops_app, Hs1, Hs2, Ha1, Ha2. split; [reflexivity|lia].
Qed.

(** ** The redraw *)

(** X1. On every state [draw] returns without throwing and emits calls
    on the 2D context only: it queues no state update and invokes no
    callback. With a canvas and a context the first call clears the
    whole canvas; with either missing nothing is painted. *)
Theorem redraw_only_paints (props : Props) (st : State) :
  exists ops, draw props st = (ctx <$> ops, Normal tt) /\
    match canvasRef_current props with
    | Some canvas =>
        if has_context2d canvas
        then head ops = Some (clearRect 0 0 (width canvas) (height canvas))
        else ops = []
    | None => ops = []
    end.
Proof.
  destruct (canvasRef_current props) as [canvas|] eqn:Hcanvas.
  - destruct (has_context2d canvas) eqn:Hctx.
    + destruct (draw_counts props st canvas Hcanvas Hctx) as (ops & Hdraw & _).
      by eexists.
    + exists []. unfold draw. by rewrite Hcanvas, Hctx.
  - exists []. unfold draw. by rewrite Hcanvas.
Qed.

(** X2. With a context available, the redraw strokes one path per
    committed curve of at least two points, one for the Active Curve
    while drawing with at least two points, and one for the rubber band
    while drawing with a point placed and the pointer known; a curve of
    0 or 1 points is never stroked. *)
Theorem redraw_stroke_count (props : Props) (st : State) :
  context_available props = true ->
  exists ops, draw props st = (ctx <$> ops, Normal tt) /\
    count_ops is_stroke ops =
      length (List.filter strokable (drawn_curves st)) +
      (if rubber_band_shown st then 1 else 0).
Proof.
  unfold context_available. intros Hctx.
  destruct (canvasRef_current props) as [canvas|] eqn:Hcanvas; [|discriminate].
  destruct (draw_counts props st canvas Hcanvas Hctx) as (ops & Hdraw & Hs & _).
  eexists. split; [exact Hdraw|]. exact Hs.
Qed.

Lemma redraw_stroke_count_witness :
  exists ops,
    draw (mkProps true (Some (mkCanvas 300 200 0 0 true)) "#000" "solid" 2 false)
      (mkState [[mkPoint 0 0; mkPoint 10 0; mkPoint 20 0]; [mkPoint 5 5]] [mkPoint 1 1]
         None None (Some (mkPoint 3 3)) true)
    = (ctx <$> ops, Normal tt) /\
    count_ops is_stroke ops = 2.
Proof.
  exact (redraw_stroke_count
           (mkProps true (Some (mkCanvas 300 200 0 0 true)) "#000" "solid" 2 false)
           (mkState [[mkPoint 0 0; mkPoint 10 0; mkPoint 20 0]; [mkPoint 5 5]] [mkPoint 1 1]
              None None (Some (mkPoint 3 3)) true) eq_refl).
Defined.

(** X3. With a context available, the redraw paints point markers for
    one curve at most: the curve standing at the selection index among
    the curves it draws (the committed ones, then the Active Curve when
    it is drawn), one marker per point, and none if that curve has fewer
    than two points or the index references no drawn curve. *)
Theorem redraw_marker_count (props : Props) (st : State) :
  context_available props = true ->
  exists ops, draw props st = (ctx <$> ops, Normal tt) /\
    count_ops is_arc ops =
      match selectedCurveIndex st with
      | Some c =>
          match drawn_curves st !! c with
          | Some curve => if strokable curve then length curve else 0
          | None => 0
          end
      | None => 0
      end.
Proof.
  unfold context_available. intros Hctx.
  destruct (canvasRef_current props) as [canvas|] eqn:Hcanvas; [|discriminate].
  destruct (draw_counts props st canvas Hcanvas Hctx) as (ops & Hdraw & _ & Ha).
  eexists. split; [exact Hdraw|].
  change (count_ops is_arc (clearRect 0 0 (width canvas) (height canvas) :: ops))
    with (count_ops is_arc ops).
  rewrite Ha. unfold marked_from.
  destruct (selectedCurveIndex st) as [c|]; [|reflexivity].
  rewrite decide_True by lia. by rewrite Nat.sub_0_r.
Qed.

Lemma redraw_marker_count_witness :
  exists ops,
    draw (mkProps true (Some (mkCanvas 300 200 0 0 true)) "#000" "solid" 2 false)
      (mkState [[mkPoint 0 0; mkPoint 10 0]; [mkPoint 0 9; mkPoint 10 9; mkPoint 20 9]] []
         (Some 1) None None false)
    = (ctx <$> ops, Normal tt) /\
    count_ops is_arc ops = 3.
Proof.
  exact (redraw_marker_count
           (mkProps true (Some (mkCanvas 300 200 0 0 true)) "#000" "solid" 2 false)
           (mkState [[mkPoint 0 0; mkPoint 10 0]; [mkPoint 0 9; mkPoint 10 9; mkPoint 20 9]] []
              (Some 1) None None false) eq_refl).
Defined.

(** ** Local control of the spline *)

Lemma array_get_insert_ne {A} (a : list A) (k : nat) (v : A) (i : Z) :
  i <> Z.of_nat k -> array_get (<[k := v]> a) i = array_get a i.
Proof.
  intros Hne. unfold array_get. destruct (Z.ltb_spec i 0); [reflexivity|].
  apply list_lookup_insert_ne. lia.
Qed.

(** X4. Moving point [k] of a curve changes at most the four segments
    [k-2 .. k+1] of its path: the pass of the spline loop for any other
    [i] emits the same segment (or fails alike) before and after. *)
Theorem spline_local_control (P : list Point) (k : nat) (p : Point) (i : nat) :
  i + 2 < k \/ k + 1 < i ->
  draw_segment (<[k := p]> P) (Z.of_nat i) = draw_segment P (Z.of_nat i).
Proof.
  intros Hfar. unfold draw_segment.
  by rewrite !array_get_insert_ne by lia.
Qed.

Lemma spline_local_control_witness :
  let P := [mkPoint 0 0; mkPoint 10 5; mkPoint 20 0; mkPoint 30 5; mkPoint 40 0] in
  draw_segment (<[4 := mkPoint 40 40]> P) 0%Z = draw_segment P 0%Z.
Proof.
  exact (spline_local_control
           [mkPoint 0 0; mkPoint 10 5; mkPoint 20 0; mkPoint 30 5; mkPoint 40 0]
           4 (mkPoint 40 40) 0 (or_introl (ltac:(cbn; lia) : 0 + 2 < 4))).
Defined.

(** ** Pointer-down, case by case *)

Lemma put_currentCurve_id (st : State) : put_currentCurve (currentCurve st) st = st.
Proof. by destruct st. Qed.

(** X5. While the listeners are attached, pointer-downs only place
    points: a run of them appends the pointer positions to the Active
    Curve in the order of arrival, whatever they hit, and changes nothing
    else. *)
Theorem drawing_clicks_accumulate (props : Props) (st : State) (es : list MouseEvent) :
  subscribed props st = true ->
  deliver_all props st (mousedown <$> es)
  = Normal (put_currentCurve (currentCurve st ++ (getMousePos props <$> es)) st).
Proof.
  revert st. induction es as [|e es IH]; intros st Hon.
  - cbn. by rewrite app_nil_r, put_currentCurve_id.
  - cbn [fmap list_fmap deliver_all]. unfold deliver. rewrite Hon. cbn [handle].
    assert (Hdrawing : drawing st = true).
    { unfold subscribed in Hon. by apply andb_true_iff in Hon as [? _]. }
    rewrite onMouseDown_drawing by exact Hdrawing.
    rewrite IH by exact Hon.
    unfold put_currentCurve. cbn. by rewrite <- app_assoc.
Qed.

Lemma drawing_clicks_accumulate_witness :
  let props := mkProps true (Some (mkCanvas 300 200 5 7 true)) "#000" "solid" 2 false in
  deliver_all props (initialState props)
    [mousedown (mkMouseEvent 15 17); mousedown (mkMouseEvent 55 17)]
  = Normal (mkState [] [mkPoint 10 10; mkPoint 50 10] None None None true).
Proof.
  exact (drawing_clicks_accumulate
           (mkProps true (Some (mkCanvas 300 200 5 7 true)) "#000" "solid" 2 false)
           (initialState (mkProps true (Some (mkCanvas 300 200 5 7 true)) "#000" "solid" 2 false))
           [mkMouseEvent 15 17; mkMouseEvent 55 17] eq_refl).
Defined.

Lemma Forall_take_first {A} (P : A -> Prop) (l : list A) (k k' : nat) (a a' : A) :
  l !! k = Some a -> ~ P a -> Forall P (take k l) ->
  l !! k' = Some a' -> ~ P a' -> Forall P (take k' l) ->
  k = k'.
Proof.
  intros Hk Ha Hbefore Hk' Ha' Hbefore'.
  destruct (Nat.lt_trichotomy k k') as [Hlt|[Heq|Hgt]]; [|exact Heq|]; exfalso.
  - rewrite Forall_forall in Hbefore'. apply Ha, Hbefore'.
    apply list_elem_of_lookup. exists k. by rewrite lookup_take_lt.
  - rewrite Forall_forall in Hbefore. apply Ha', Hbefore.
    apply list_elem_of_lookup. exists k'. by rewrite lookup_take_lt.
Qed.

(** X6. Outside Drawing, with a committed curve selected, a
    pointer-down within 10 pixels of one of its points sets the drag
    index to the first such point, in index order, and changes nothing
    else; the curve-level test is not reached. *)
Theorem point_hit_starts_drag (props : Props) (st : State) (e : MouseEvent)
        (c k : nat) (curve : Curve) (pt : Point) :
  drawing st = false ->
  selectedCurveIndex st = Some c ->
  curves st !! c = Some curve ->
  curve !! k = Some pt ->
  isNear (getMousePos props e) pt 10 = true ->
  Forall (fun pt' => isNear (getMousePos props e) pt' 10 = false) (take k curve) ->
  onMouseDown props st e = Normal (put_dragging (Some k) st).
Proof.
  intros Hdrawing Hsel Hc Hk Hnear Hbefore.
  pose proof (onMouseDown_transition props st e) as Hstep.
  inversion Hstep as [Hd|c' Hd Hsel' Hc'|c' curve' k' pt' Hd Hsel' Hc' Hk' Hnear' Hbefore'
                      |i Hd Hmiss Hhit|Hd Hmiss Hhit]; try congruence.
  - assert (c' = c) as -> by congruence.
    assert (curve' = curve) as -> by congruence.
    f_equal. f_equal. f_equal.
    eapply (Forall_take_first (fun q => isNear (getMousePos props e) q 10 = false));
      eauto; congruence.
  - exfalso. unfold no_point_hit in Hmiss. rewrite Hsel in Hmiss.
    destruct Hmiss as (curve' & Hc' & Hall). assert (curve' = curve) as -> by congruence.
    rewrite Forall_forall in Hall.
    rewrite (Hall pt) in Hnear; [discriminate|]. by eapply list_elem_of_lookup_2.
  - exfalso. unfold no_point_hit in Hmiss. rewrite Hsel in Hmiss.
    destruct Hmiss as (curve' & Hc' & Hall). assert (curve' = curve) as -> by congruence.
    rewrite Forall_forall in Hall.
    rewrite (Hall pt) in Hnear; [discriminate|]. by eapply list_elem_of_lookup_2.
Qed.

Lemma point_hit_starts_drag_witness :
  onMouseDown (mkProps false (Some (mkCanvas 300 200 0 0 true)) "#000" "solid" 2 false)
    (mkState [[mkPoint 0 0; mkPoint 10 0; mkPoint 20 0]] [] (Some 0) None None false)
    (mkMouseEvent 10 2)
  = Normal (mkState [[mkPoint 0 0; mkPoint 10 0; mkPoint 20 0]] [] (Some 0) (Some 1) None false).
Proof.
  refine (point_hit_starts_drag
            (mkProps false (Some (mkCanvas 300 200 0 0 true)) "#000" "solid" 2 false)
            (mkState [[mkPoint 0 0; mkPoint 10 0; mkPoint 20 0]] [] (Some 0) None None false)
            (mkMouseEvent 10 2) 0 1 [mkPoint 0 0; mkPoint 10 0; mkPoint 20 0] (mkPoint 10 0)
            eq_refl eq_refl eq_refl eq_refl eq_refl _).
  repeat constructor.
Defined.

(** X7. Outside Drawing, when the point-level test finds nothing and
    the curve-level test returns [i], pointer-down sets the selection
    index to [i], which references a committed curve; the drag index,
    like everything else, stays as it was. *)
Theorem curve_hit_selects (props : Props) (st : State) (e : MouseEvent) (i : nat) :
  drawing st = false ->
  no_point_hit st (getMousePos props e) ->
  hitIndex (curves st) (getMousePos props e) = Z.of_nat i ->
  onMouseDown props st e = Normal (put_selectedCurveIndex (Some i) st) /\
  i < length (curves st).
Proof.
  intros Hdrawing Hmiss Hhit. split.
  - pose proof (onMouseDown_transition props st e) as Hstep.
    inversion Hstep as [Hd|c' Hd Hsel' Hc'|c' curve' k' pt' Hd Hsel' Hc' Hk' Hnear' Hbefore'
                        |i' Hd Hmiss' Hhit'|Hd Hmiss' Hhit']; try congruence; try lia.
    + exfalso. unfold no_point_hit in Hmiss. rewrite Hsel' in Hmiss.
      destruct Hmiss as (curve' & Hcurve' & _). congruence.
    + exfalso. unfold no_point_hit in Hmiss. rewrite Hsel' in Hmiss.
      destruct Hmiss as (curve & Hcurve & Hall). assert (curve = curve') as -> by congruence.
      rewrite Forall_forall in Hall.
      rewrite (Hall pt') in Hnear'; [discriminate|]. by eapply list_elem_of_lookup_2.
    + assert (i' = i) as -> by lia. reflexivity.
  - destruct (hitIndex_cases (curves st) (getMousePos props e))
      as [[Hm _]|(i' & c & Hi' & Hc & _)]; [lia|].
    assert (i' = i) as -> by lia. by eapply lookup_lt_Some.
Qed.

Lemma curve_hit_selects_witness :
  onMouseDown (mkProps false (Some (mkCanvas 300 200 0 0 true)) "#000" "solid" 2 false)
    (mkState [[mkPoint 0 0; mkPoint 10 0; mkPoint 20 0]] [] None (Some 2) None false)
    (mkMouseEvent 10 0)
  = Normal (mkState [[mkPoint 0 0; mkPoint 10 0; mkPoint 20 0]] [] (Some 0) (Some 2) None false).
Proof.
  exact (proj1 (curve_hit_selects
           (mkProps false (Some (mkCanvas 300 200 0 0 true)) "#000" "solid" 2 false)
           (mkState [[mkPoint 0 0; mkPoint 10 0; mkPoint 20 0]] [] None (Some 2) None false)
           (mkMouseEvent 10 0) 0 eq_refl I eq_refl)).
Defined.

(** X8. Outside Drawing, when neither test finds anything, pointer-down
    enters Drawing with an Active Curve that holds the pointer position
    alone, whatever the Active Curve held before; the committed curves,
    the selection index and the drag index stay as they were. *)
Theorem miss_starts_new_curve (props : Props) (st : State) (e : MouseEvent) :
  drawing st = false ->
  no_point_hit st (getMousePos props e) ->
  hitIndex (curves st) (getMousePos props e) = (-1)%Z ->
  onMouseDown props st e
  = Normal (put_drawing true (put_currentCurve [getMousePos props e] st)).
Proof.
  intros Hdrawing Hmiss Hhit.
  pose proof (onMouseDown_transition props st e) as Hstep.
  inversion Hstep as [Hd|c' Hd Hsel' Hc'|c' curve' k' pt' Hd Hsel' Hc' Hk' Hnear' Hbefore'
                      |i' Hd Hmiss' Hhit'|Hd Hmiss' Hhit']; try congruence; try lia.
  - exfalso. unfold no_point_hit in Hmiss. rewrite Hsel' in Hmiss.
    destruct Hmiss as (curve' & Hcurve' & _). congruence.
  - exfalso. unfold no_point_hit in Hmiss. rewrite Hsel' in Hmiss.
    destruct Hmiss as (curve & Hcurve & Hall). assert (curve = curve') as -> by congruence.
    rewrite Forall_forall in Hall.
    rewrite (Hall pt') in Hnear'; [discriminate|]. by eapply list_elem_of_lookup_2.
Qed.

Lemma miss_starts_new_curve_witness :
  onMouseDown (mkProps false (Some (mkCanvas 300 200 0 0 true)) "#000" "solid" 2 false)
    (mkState [[mkPoint 0 0; mkPoint 10 0]] [mkPoint 7 7] (Some 0) None None false)
    (mkMouseEvent 100 100)
  = Normal (mkState [[mkPoint 0 0; mkPoint 10 0]] [mkPoint 100 100] (Some 0) None None true).
Proof.
  refine (miss_starts_new_curve
            (mkProps false (Some (mkCanvas 300 200 0 0 true)) "#000" "solid" 2 false)
            (mkState [[mkPoint 0 0; mkPoint 10 0]] [mkPoint 7 7] (Some 0) None None false)
            (mkMouseEvent 100 100) eq_refl _ eq_refl).
  exists [mkPoint 0 0; mkPoint 10 0]. split; [reflexivity|]. repeat constructor.
Defined.

(** ** Pointer-move, case by case *)

(** X9. A pointer-move that is processed to completion records the
    pointer position and touches no curve but the selected one: the
    number of committed curves, every curve other than the selected one,
    the Active Curve, the selection index, the drag index and the
    drawing flag are as before, and without a drag index no committed
    curve changes at all. *)
Theorem pointer_move_frame (props : Props) (st st' : State) (e : MouseEvent) :
  onMouseMove props st e = Normal st' ->
  mousePos st' = Some (getMousePos props e) /\
  length (curves st') = length (curves st) /\
  (forall c', selectedCurveIndex st <> Some c' -> curves st' !! c' = curves st !! c') /\
  (dragging st = None -> curves st' = curves st) /\
  currentCurve st' = currentCurve st /\
  selectedCurveIndex st' = selectedCurveIndex st /\
  dragging st' = dragging st /\
  drawing st' = drawing st.
Proof.
  intros Hrun.
  destruct (onMouseMove_cases props st e)
    as [Hidle|[(c & k & curve & Hsel & Hdrag & Hc & Hcases)|(c & _ & _ & Hthrow)]];
    [| |congruence].
  - rewrite Hidle in Hrun. injection Hrun as <-. by cbn.
  - assert (Hother : forall new c', selectedCurveIndex st <> Some c' ->
              <[c := new]> (curves st) !! c' = curves st !! c').
    { intros new c' Hne. apply list_lookup_insert_ne. congruence. }
    destruct Hcases as [[_ Hok]|[[_ Hok]|[_ Hthrow]]]; [| |congruence];
      rewrite Hok in Hrun; injection Hrun as <-; cbn;
      rewrite length_insert; repeat split; try done;
      first [apply Hother|intros; congruence].
Qed.

Lemma pointer_move_frame_witness :
  let props := mkProps true (Some (mkCanvas 300 200 0 0 true)) "#000" "solid" 2 false in
  let st := mkState [[mkPoint 0 0; mkPoint 10 0]] [mkPoint 5 5] None None None true in
  let st' := mkState [[mkPoint 0 0; mkPoint 10 0]] [mkPoint 5 5] None None
               (Some (mkPoint 30 40)) true in
  mousePos st' = Some (mkPoint 30 40) /\ curves st' = curves st.
Proof.
  pose proof (pointer_move_frame
    (mkProps true (Some (mkCanvas 300 200 0 0 true)) "#000" "solid" 2 false)
    (mkState [[mkPoint 0 0; mkPoint 10 0]] [mkPoint 5 5] None None None true)
    (mkState [[mkPoint 0 0; mkPoint 10 0]] [mkPoint 5 5] None None (Some (mkPoint 30 40)) true)
    (mkMouseEvent 30 40) eq_refl) as (Hpos & _ & _ & Hcurves & _).
  split; [exact Hpos|exact (Hcurves eq_refl)].
Defined.

(** X10. A drag index equal to the number of points of the selected
    curve is not refused: pointer-move appends the pointer position to
    that curve, which grows by one point, and leaves the other committed
    curves alone. *)
Theorem drag_index_at_length_appends (props : Props) (st : State) (e : MouseEvent)
        (c : nat) (curve : Curve) :
  selectedCurveIndex st = Some c ->
  curves st !! c = Some curve ->
  dragging st = Some (length curve) ->
  exists st',
    onMouseMove props st e = Normal st' /\
    curves st' !! c = Some (curve ++ [getMousePos props e]) /\
    length (curves st') = length (curves st) /\
    (forall c', c' <> c -> curves st' !! c' = curves st !! c').
Proof.
  intros Hsel Hc Hdrag.
  eexists. split; [by eapply onMouseMove_append|]. cbn.
  split; [apply list_lookup_insert_eq; by eapply lookup_lt_Some|].
  split; [apply length_insert|].
  intros c' Hne. by apply list_lookup_insert_ne.
Qed.

Lemma drag_index_at_length_appends_witness :
  exists st',
    onMouseMove (mkProps false (Some (mkCanvas 300 200 0 0 true)) "#000" "solid" 2 false)
      (mkState [[mkPoint 0 0; mkPoint 10 0]] [] (Some 0) (Some 2) None false)
      (mkMouseEvent 20 0) = Normal st' /\
    curves st' !! 0 = Some [mkPoint 0 0; mkPoint 10 0; mkPoint 20 0].
Proof.
  destruct (drag_index_at_length_appends
              (mkProps false (Some (mkCanvas 300 200 0 0 true)) "#000" "solid" 2 false)
              (mkState [[mkPoint 0 0; mkPoint 10 0]] [] (Some 0) (Some 2) None false)
              (mkMouseEvent 20 0) 0 [mkPoint 0 0; mkPoint 10 0] eq_refl eq_refl eq_refl)
    as (st' & Hrun & Hc & _).
  by exists st'.
Defined.

(** ** Invariants of the handlers *)

Lemma handle_selection_in_range (props : Props) (st st' : State) (ev : Event) :
  selection_in_range st -> handle props st ev = Normal st' -> selection_in_range st'.
Proof.
  unfold selection_in_range. intros Hsel Hrun.
  destruct ev as [e|e|e|e]; cbn [handle] in Hrun.
  - pose proof (onMouseDown_transition props st e) as Hstep. rewrite Hrun in Hstep.
    inversion Hstep as [Hd|c' Hd Hsel' Hc'|c' curve' k' pt' Hd Hsel' Hc' Hk' Hnear' Hbefore'
                        |i Hd Hmiss Hhit|Hd Hmiss Hhit]; subst; cbn; try exact Hsel.
    destruct (hitIndex_cases (curves st) (getMousePos props e))
      as [[Hm _]|(i' & c & Hi' & Hc & _)]; [lia|].
    assert (i' = i) as -> by lia. by eapply lookup_lt_Some.
  - destruct (onMouseMove_cases props st e)
      as [Hidle|[(c & k & curve & _ & _ & _ & Hcases)|(c & _ & _ & Hthrow)]];
      [| |congruence].
    + rewrite Hidle in Hrun. by injection Hrun as <-.
    + destruct Hcases as [[_ Hok]|[[_ Hok]|[_ Hthrow]]]; [| |congruence];
        rewrite Hok in Hrun; injection Hrun as <-; cbn;
        by rewrite length_insert.
  - rewrite onMouseUp_result in Hrun. by injection Hrun as <-.
  - destruct (onKeyDown_cases props st e) as [(_ & _ & _ & Hcommit)|Hsame];
      rewrite Hrun in *.
    + by injection Hcommit as ->.
    + by injection Hsame as ->.
Qed.

(** X11. A selection index that references a committed curve keeps
    doing so: the handlers set it only to an index the curve-level test
    returned or to null, and they never remove a committed curve. After
    every sequence of handled events that is processed to completion
    the selection index is null or in range. *)
Theorem selection_stays_in_range (props : Props) (st st' : State) (evs : list Event) :
  selection_in_range st ->
  handle_all props st evs = Normal st' ->
  selection_in_range st'.
Proof.
  revert st. induction evs as [|ev evs IH]; intros st Hsel Hrun; cbn [handle_all] in Hrun.
  - by injection Hrun as <-.
  - destruct (handle props st ev) as [st1|a] eqn:Hstep; [|discriminate].
    eapply IH; [|exact Hrun]. by eapply handle_selection_in_range.
Qed.

Lemma selection_stays_in_range_witness :
  selection_in_range
    (mkState [[mkPoint 0 0; mkPoint 10 40; mkPoint 20 0]] [] (Some 0) (Some 1)
       (Some (mkPoint 10 40)) false).
Proof.
  exact (selection_stays_in_range
           (mkProps false (Some (mkCanvas 300 200 0 0 true)) "#000" "solid" 2 false)
           (mkState [[mkPoint 0 0; mkPoint 10 0; mkPoint 20 0]] [] None None None false)
           (mkState [[mkPoint 0 0; mkPoint 10 40; mkPoint 20 0]] [] (Some 0) (Some 1)
              (Some (mkPoint 10 40)) false)
           [mousedown (mkMouseEvent 10 0); mousedown (mkMouseEvent 10 2);
            mousemove (mkMouseEvent 10 40)] I eq_refl).
Defined.

Lemma handle_curves_strokable (props : Props) (st st' : State) (ev : Event) :
  curves_strokable st -> handle props st ev = Normal st' -> curves_strokable st'.
Proof.
  unfold curves_strokable. intros Hall Hrun.
  destruct ev as [e|e|e|e]; cbn [handle] in Hrun.
  - pose proof (onMouseDown_transition props st e) as Hstep. rewrite Hrun in Hstep.
    inversion Hstep; subst; exact Hall.
  - destruct (onMouseMove_cases props st e)
      as [Hidle|[(c & k & curve & _ & _ & Hcurve & Hcases)|(c & _ & _ & Hthrow)]];
      [| |congruence].
    + rewrite Hidle in Hrun. by injection Hrun as <-.
    + assert (Hlen : 2 <= length curve).
      { by eapply (Forall_lookup_1 (fun cv : Curve => 2 <= length cv)). }
      destruct Hcases as [[_ Hok]|[[_ Hok]|[_ Hthrow]]]; [| |congruence];
        rewrite Hok in Hrun; injection Hrun as <-; cbn;
        apply Forall_insert; try exact Hall.
      * by rewrite length_insert.
      * rewrite length_app. lia.
  - rewrite onMouseUp_result in Hrun. by injection Hrun as <-.
  - destruct (onKeyDown_cases props st e) as [(_ & _ & Hlen & Hcommit)|Hsame];
      rewrite Hrun in *.
    + injection Hcommit as ->. cbn. apply Forall_app. split; [exact Hall|].
      by constructor.
    + by injection Hsame as ->.
Qed.

(** X12. The handlers never leave a committed curve with fewer than two
    points: if every committed curve has at least two before a sequence
    of events, every committed curve has at least two after it, so each
    of them is stroked by the redraw. *)
Theorem committed_curves_keep_two_points
        (props : Props) (st st' : State) (evs : list Event) :
  curves_strokable st ->
  handle_all props st evs = Normal st' ->
  curves_strokable st'.
Proof.
  revert st. induction evs as [|ev evs IH]; intros st Hall Hrun; cbn [handle_all] in Hrun.
  - by injection Hrun as <-.
  - destruct (handle props st ev) as [st1|a] eqn:Hstep; [|discriminate].
    eapply IH; [|exact Hrun]. by eapply handle_curves_strokable.
Qed.

Lemma committed_curves_keep_two_points_witness :
  curves_strokable (mkState [[mkPoint 10 10; mkPoint 50 10]] [] None None None false).
Proof.
  exact (committed_curves_keep_two_points
           (mkProps false (Some (mkCanvas 300 200 0 0 true)) "#000" "solid" 2 false)
           (mkState [] [] None None None false)
           (mkState [[mkPoint 10 10; mkPoint 50 10]] [] None None None false)
           [mousedown (mkMouseEvent 10 10); mousedown (mkMouseEvent 50 10);
            keydown (mkKeyboardEvent "Enter")]
           (Forall_nil_2 _) eq_refl).
Defined.

(** ** What a commit emits *)

Lemma tool_resets_app (t1 t2 : list Effect) :
  tool_resets (t1 ++ t2) = tool_resets t1 + tool_resets t2.
Proof. unfold tool_resets. by rewrite List.filter_app, length_app. Qed.

Lemma tool_resets_ctx (ops : list CanvasOp) : tool_resets (ctx <$> ops) = 0.
Proof. induction ops as [|op ops IH]; [reflexivity|exact IH]. Qed.

Lemma finished_curves_app (t1 t2 : list Effect) :
  finished_curves (t1 ++ t2) = finished_curves t1 ++ finished_curves t2.
Proof. apply omap_app. Qed.

Lemma finished_curves_ctx (ops : list CanvasOp) : finished_curves (ctx <$> ops) = [].
Proof. induction ops as [|op ops IH]; [reflexivity|exact IH]. Qed.

(** X13. A successful commit calls [setActiveTool(null)] exactly once
    and, when [onFinishCurve] is given, calls it exactly once; its
    argument is the point sequence of the Active Curve, the same that
    ends up last among the committed curves. *)
Theorem commit_notifies_once (props : Props) (st : State) (e : KeyboardEvent) :
  key e = "Enter" -> drawing st = true -> 2 <= length (currentCurve st) ->
  let t := (handleKeyDown props st e).1 in
  tool_resets t = 1 /\
  finished_curves t = (if has_onFinishCurve props then [currentCurve st] else []) /\
  exists st', onKeyDown props st e = Normal st' /\
    last (curves st') = Some (currentCurve st).
Proof.
  intros Hkey Hdrawing Hlen t. subst t.
  destruct (handleKeyDown_commit props st e Hkey Hdrawing Hlen)
    as (cleared & painted & ->). cbn [fst].
  split; [|split].
  - rewrite tool_resets_app, tool_resets_ctx. cbn [app].
    change (tool_resets (?a :: ?b :: ?c :: ?d :: call_setActiveTool_null :: ?f :: ?r))
      with (S (tool_resets r)).
    rewrite tool_resets_app, tool_resets_ctx.
    by destruct (has_onFinishCurve props).
  - rewrite finished_curves_app, finished_curves_ctx. cbn [app].
    change (finished_curves (?a :: ?b :: ?c :: ?d :: call_setActiveTool_null :: ?f :: ?r))
      with (finished_curves r).
    rewrite finished_curves_app, finished_curves_ctx.
    by destruct (has_onFinishCurve props).
  - eexists. split; [by apply onKeyDown_commit|]. cbn. by rewrite last_snoc.
Qed.

Lemma commit_notifies_once_witness :
  let props := mkProps true (Some (mkCanvas 300 200 0 0 true)) "#000" "solid" 2 true in
  let st := mkState [] [mkPoint 10 10; mkPoint 50 10] None None None true in
  finished_curves (handleKeyDown props st (mkKeyboardEvent "Enter")).1
  = [[mkPoint 10 10; mkPoint 50 10]].
Proof.
  exact (proj1 (proj2 (commit_notifies_once
    (mkProps true (Some (mkCanvas 300 200 0 0 true)) "#000" "solid" 2 true)
    (mkState [] [mkPoint 10 10; mkPoint 50 10] None None None true)
    (mkKeyboardEvent "Enter") eq_refl eq_refl ltac:(cbn; lia)))).
Defined.

Lemma finalize_stroke_style_counts (props : Props) :
  exists ops, paints (finalize_stroke_style props) ops /\
    count_ops is_stroke ops = 0 /\ count_ops is_arc ops = 0.
Proof.
  unfold finalize_stroke_style, paints.
  destruct (String.eqb (strokeStyle props) "dashed");
    [|destruct (String.eqb (strokeStyle props) "dotted");
      [|destruct (String.eqb (strokeStyle props) "double")]];
    eexists [_; _; _; _]; by split.
Qed.

Lemma finalize_curve_counts (props : Props) (curve : Curve) (idx : nat) :
  exists ops, paints (finalize_curve props curve idx) ops /\
    count_ops is_arc ops = 0 /\
    if context_available props
    then count_ops is_stroke ops = (if strokable curve then 1 else 0)
    else ops = [].
Proof.
  unfold finalize_curve, strokable.
  destruct (Nat.ltb_spec (length curve) 2) as [Hshort|Hlong]; cbn [negb].
  { exists []. repeat split. by destruct (context_available props). }
  destruct (context_available props); cbn [negb]; [|by exists []].
  destruct (finalize_stroke_style_counts props) as (style & Hstyle & Hs & Ha).
  eexists. split.
  - apply paints_bind; [by apply finalize_path_paints|].
    apply paints_bind; [exact Hstyle|].
    apply (paints_bind _ _ [stroke] [setLineDash []]); apply paints_emit.
  - rewrite !count_ops_app, Hs, Ha.
    change (beginPath :: spline_path curve) with ([beginPath] ++ spline_path curve).
    rewrite !count_ops_app, !count_ops_spline_path by done. by split.
Qed.

Lemma finalize_curves_counts (props : Props) (a : list Curve) (idx : nat) :
  exists ops, paints (forEach_from a idx (finalize_curve props)) ops /\
    count_ops is_arc ops = 0 /\
    if context_available props
    then count_ops is_stroke ops = length (List.filter strokable a)
    else ops = [].
Proof.
  revert idx. induction a as [|curve a IH]; intros idx; cbn [forEach_from].
  - exists []. repeat split. by destruct (context_available props).
  - destruct (finalize_curve_counts props curve idx) as (ops1 & H1 & Ha1 & Hs1).
    destruct (IH (S idx)) as (ops2 & H2 & Ha2 & Hs2).
    exists (ops1 ++ ops2). split; [by apply paints_bind|].
    rewrite !count_ops_app, Ha1, Ha2. split; [reflexivity|].
    destruct (context_available props).
    + rewrite Hs1, Hs2. cbn [List.filter]. by destruct (strokable curve).
    + by rewrite Hs1, Hs2.
Qed.

(** X14. The redraw inside the commit handler paints no point marker,
    whatever is selected. With a context available it strokes every
    committed curve of at least two points once and the curve being
    committed twice, since that curve is put on the list of curves to
    paint two times; without a context it paints nothing, and the commit
    goes ahead all the same. *)
Theorem commit_redraw_strokes (props : Props) (st : State) (e : KeyboardEvent) :
  key e = "Enter" -> drawing st = true -> 2 <= length (currentCurve st) ->
  let ops := canvas_ops (handleKeyDown props st e).1 in
  count_ops is_arc ops = 0 /\
  (if context_available props
   then count_ops is_stroke ops = length (List.filter strokable (curves st)) + 2
   else ops = []) /\
  exists st', onKeyDown props st e = Normal st'.
Proof.
  intros Hkey Hdrawing Hlen ops. subst ops.
  assert (Hrun : exists st', onKeyDown props st e = Normal st')
    by (eexists; by apply onKeyDown_commit).
  unfold handleKeyDown.
  rewrite Hkey, Hdrawing. cbn [String.eqb Ascii.eqb Bool.eqb andb].
  destruct (Nat.ltb_spec 1 (length (currentCurve st))) as [_|]; [|lia].
  destruct (finalize_curves_counts props
              ((curves st ++ [currentCurve st]) ++ [currentCurve st]) 0)
    as (painted & Hpainted & Harc & Hstroke).
  unfold forEach. rewrite Hpainted.
  assert (Hlong : strokable (currentCurve st) = true).
  { unfold strokable. by destruct (Nat.ltb_spec (length (currentCurve st)) 2); [lia|]. }
  assert (Hcount : length (List.filter strokable
                     ((curves st ++ [currentCurve st]) ++ [currentCurve st]))
                   = length (List.filter strokable (curves st)) + 2).
  { rewrite !List.filter_app, !length_app. cbn [List.filter]. rewrite Hlong. cbn. lia. }
  unfold context_available, count_ops in *.
  destruct (canvasRef_current props) as [canvas|];
    [destruct (has_context2d canvas)|];
    cbn; destruct (has_onFinishCurve props); cbn;
    change (omap _ ?t) with (canvas_ops t);
    rewrite canvas_ops_app, canvas_ops_ctx;
    first [change (canvas_ops [_]) with (@nil CanvasOp)
          |change (canvas_ops []) with (@nil CanvasOp)];
    rewrite app_nil_r;
    (split; [exact Harc|split; [|exact Hrun]]);
    first [by rewrite Hstroke|exact Hstroke].
Qed.

Lemma commit_redraw_strokes_witness :
  let props := mkProps true (Some (mkCanvas 300 200 0 0 true)) "#000" "solid" 2 true in
  let st := mkState [[mkPoint 0 0; mkPoint 10 0]] [mkPoint 10 10; mkPoint 50 10]
              (Some 0) None None true in
  count_ops is_stroke (canvas_ops (handleKeyDown props st (mkKeyboardEvent "Enter")).1) = 3.
Proof.
  exact (proj1 (proj2 (commit_redraw_strokes
    (mkProps true (Some (mkCanvas 300 200 0 0 true)) "#000" "solid" 2 true)
    (mkState [[mkPoint 0 0; mkPoint 10 0]] [mkPoint 10 10; mkPoint 50 10]
       (Some 0) None None true)
    (mkKeyboardEvent "Enter") eq_refl eq_refl ltac:(cbn; lia)))).
Defined.

(** ** Keys that do nothing *)

(** X15. A key press has an effect exactly when it is Enter, the tool
    is drawing and the Active Curve has at least two points; any other
    key press emits nothing at all: no canvas call, no state update, no
    callback. *)
Theorem key_ignored_unless_commit (props : Props) (st : State) (e : KeyboardEvent) :
  handleKeyDown props st e = ([], Normal tt) <->
  ~ (key e = "Enter" /\ drawing st = true /\ 2 <= length (currentCurve st)).
Proof.
  split.
  - intros Hnothing (Hkey & Hdrawing & Hlen).
    destruct (handleKeyDown_commit props st e Hkey Hdrawing Hlen)
      as (cleared & painted & Hrun).
    rewrite Hrun in Hnothing. injection Hnothing as Htrace.
    apply app_eq_nil in Htrace as [_ Htrace]. discriminate.
  - intros Hnot. unfold handleKeyDown.
    destruct (String.eqb_spec (key e) "Enter") as [Hkey|_]; [|reflexivity].
    destruct (drawing st) eqn:Hdrawing; [|reflexivity].
    destruct (Nat.ltb_spec 1 (length (currentCurve st))) as [Hlen|_]; [|reflexivity].
    exfalso. apply Hnot. by repeat split.
Qed.

(** ** The life of the mounted component *)

(** X16. A component mounted with [active] false, or whose canvas is
    missing, stays in its initial state whatever events arrive: its
    listeners are never attached, so no pointer-down can start a
    curve. *)
Theorem unarmed_component_is_inert (props : Props) (evs : list Event) :
  active props = false \/ canvasRef_current props = None ->
  deliver_all props (initialState props) evs = Normal (initialState props).
Proof.
  intros Hoff. apply deliver_all_unsubscribed. unfold subscribed.
  cbn [initialState drawing].
  destruct Hoff as [->| ->]; [reflexivity|]. cbn. apply andb_false_r.
Qed.

Lemma unarmed_component_is_inert_witness :
  let props := mkProps false (Some (mkCanvas 300 200 0 0 true)) "#000" "solid" 2 false in
  deliver_all props (initialState props)
    [mousedown (mkMouseEvent 10 10); mousedown (mkMouseEvent 50 10);
     keydown (mkKeyboardEvent "Enter")]
  = Normal (initialState props).
Proof.
  exact (unarmed_component_is_inert
           (mkProps false (Some (mkCanvas 300 200 0 0 true)) "#000" "solid" 2 false)
           [mousedown (mkMouseEvent 10 10); mousedown (mkMouseEvent 50 10);
            keydown (mkKeyboardEvent "Enter")] (or_introl eq_refl)).
Defined.

Lemma deliver_mounted_state (props : Props) (st : State) (ev : Event) :
  mounted_state st ->
  exists st', deliver props st ev = Normal st' /\ mounted_state st'.
Proof.
  intros (Hsel & Hdrag & Hone & Hlong & Hnone). unfold deliver.
  destruct (subscribed props st) eqn:Hon; [|by exists st].
  assert (Hdrawing : drawing st = true).
  { unfold subscribed in Hon. by apply andb_true_iff in Hon as [? _]. }
  destruct ev as [e|e|e|e]; cbn [handle].
  - eexists. split; [by apply onMouseDown_drawing|]. by repeat split.
  - eexists. split; [apply onMouseMove_idle; by left|]. by repeat split.
  - eexists. split; [apply onMouseUp_result|]. by repeat split.
  - destruct (onKeyDown_cases props st e) as [(_ & _ & Hlen & ->)| ->];
      eexists; (split; [reflexivity|]); [|by repeat split].
    unfold mounted_state, curves_strokable. cbn. rewrite (Hnone Hdrawing). cbn.
    repeat split; try done. by repeat constructor.
Qed.

(** X17. From its initial state the mounted component processes every
    sequence of events to completion; it never holds a selection or a
    drag index, and it commits one curve at most, of at least two
    points: while it is drawing nothing is committed, and the commit
    that ends drawing is the last event it reacts to. *)
Theorem mounted_component_commits_at_most_one_curve (props : Props) (evs : list Event) :
  exists st, deliver_all props (initialState props) evs = Normal st /\
    selectedCurveIndex st = None /\ dragging st = None /\
    length (curves st) <= 1 /\
    Forall (fun curve => 2 <= length curve) (curves st) /\
    match curves st with [] => True | _ => drawing st = false end.
Proof.
  assert (Hinv : forall st, mounted_state st ->
    exists st', deliver_all props st evs = Normal st' /\ mounted_state st').
  { induction evs as [|ev evs IH]; intros st Hst; [by exists st|].
    destruct (deliver_mounted_state props st ev Hst) as (st1 & Hstep & Hst1).
    cbn [deliver_all]. rewrite Hstep. by apply IH. }
  destruct (Hinv (initialState props)) as (st & Hrun & Hsel & Hdrag & Hone & Hlong & Hnone).
  { unfold mounted_state, curves_strokable. cbn. repeat split; try done. lia. }
  exists st. repeat (split; [done|]).
  destruct (curves st) eqn:Hcurves; [done|].
  destruct (drawing st); [|reflexivity]. by specialize (Hnone eq_refl).
Qed.

(** ** The rubber band *)

(** X18. While drawing with at least one point placed and no drag in
    progress, a pointer-move makes the next redraw paint the guide
    segment from the last placed point to the new pointer position,
    dashed by the brush size in the fixed colour [#aaa]. *)
Theorem preview_follows_pointer (props : Props) (st : State) (e : MouseEvent)
        (lastPoint : Point) :
  drawing st = true ->
  last (currentCurve st) = Some lastPoint ->
  dragging st = None ->
  let p := getMousePos props e in
  exists st',
    onMouseMove props st e = Normal st' /\
    draw_rubber_band props st' =
    (ctx <$> [beginPath; moveTo (x lastPoint) (y lastPoint); lineTo (x p) (y p);
              set_strokeStyle "#aaa"; setLineDash [brushSize props; brushSize props];
              set_lineWidth (brushSize props); stroke; setLineDash []],
     Normal tt).
Proof.
  intros Hdrawing Hlast Hdrag p.
  eexists. split; [apply onMouseMove_idle; by left|].
  unfold draw_rubber_band. cbn [mousePos put_mousePos drawing currentCurve].
  rewrite Hdrawing. rewrite last_lookup in Hlast.
  assert (Hlen : 0 < length (currentCurve st)).
  { apply lookup_lt_Some in Hlast. lia. }
  destruct (Nat.ltb_spec 0 (length (currentCurve st))) as [_|]; [|lia].
  cbn [andb].
  replace (Z.of_nat (length (currentCurve st)) - 1)%Z
    with (Z.of_nat (Nat.pred (length (currentCurve st)))) by lia.
  by rewrite array_get_of_nat, Hlast.
Qed.

Lemma preview_follows_pointer_witness :
  let props := mkProps true (Some (mkCanvas 300 200 0 0 true)) "#000" "solid" 2 false in
  let st := mkState [] [mkPoint 10 10; mkPoint 50 10] None None None true in
  exists st',
    onMouseMove props st (mkMouseEvent 60 60) = Normal st' /\
    canvas_ops (draw_rubber_band props st').1 !! 2 = Some (lineTo 60 60).
Proof.
  destruct (preview_follows_pointer
              (mkProps true (Some (mkCanvas 300 200 0 0 true)) "#000" "solid" 2 false)
              (mkState [] [mkPoint 10 10; mkPoint 50 10] None None None true)
              (mkMouseEvent 60 60) (mkPoint 50 10) eq_refl eq_refl eq_refl)
    as (st' & Hrun & Hband).
  exists st'. split; [exact Hrun|]. by rewrite Hband.
Defined.
